(** * Attendance tracker back end: a shallow embedding of [backend/server.js]

    The service is an Express application in front of a MySQL table.  The
    development follows the source file from top to bottom:

    - the JavaScript primitives the handlers rely on (truthiness, [trim],
      [includes], [indexOf], [RegExp.prototype.test], [isNaN], [parseInt]);
    - the [Attendance] table and the three SQL statements the handlers issue;
    - the CORS origin callback, the route handlers and the middleware chain;
    - [initDatabase] and the retry loop of [startServer].

    Strings are sequences of 8-bit code units (the Latin-1 range of
    JavaScript's UTF-16 code units). *)

From Stdlib Require Import ZArith Ascii String List Lia.
From stdpp Require Import base strings list gmap sorting.
From Equations Require Import Equations.

Local Set Warnings "-register-all".
Local Open Scope string_scope.
Local Open Scope Z_scope.

(** ** JavaScript strings *)

Module Js.

Definition code (c : ascii) : N := N_of_ascii c.

(** [\d] without the [u] flag: the ten ASCII digits. *)
Definition is_digit (c : ascii) : bool :=
  ((48 <=? code c) && (code c <=? 57))%N.

Arguments is_digit : simpl never.

Definition is_hex_digit (c : ascii) : bool :=
  is_digit c
  || ((97 <=? code c) && (code c <=? 102))%N
  || ((65 <=? code c) && (code c <=? 70))%N.

Definition is_octal_digit (c : ascii) : bool :=
  ((48 <=? code c) && (code c <=? 55))%N.

Definition is_binary_digit (c : ascii) : bool :=
  ((48 <=? code c) && (code c <=? 49))%N.

(** WhiteSpace and LineTerminator code units below 256: TAB, LF, VT, FF, CR,
    SP and NBSP.  This is the set stripped by [trim] and skipped by the
    string-to-number conversion. *)
Definition is_space (c : ascii) : bool :=
  existsb (N.eqb (code c)) [9; 10; 11; 12; 13; 32; 160]%N.

Definition is_empty (s : string) : bool :=
  match s with EmptyString => true | String _ _ => false end.

Fixpoint trimStart (s : string) : string :=
  match s with
  | EmptyString => EmptyString
  | String c s' => if is_space c then trimStart s' else s
  end.

Fixpoint trimEnd (s : string) : string :=
  match s with
  | EmptyString => EmptyString
  | String c s' =>
      let r := trimEnd s' in
      if is_space c && is_empty r then EmptyString else String c r
  end.

(** [String.prototype.trim]. *)
Definition trim (s : string) : string := trimEnd (trimStart s).

Fixpoint all_chars (p : ascii -> bool) (s : string) : bool :=
  match s with
  | EmptyString => true
  | String c s' => p c && all_chars p s'
  end.

(** Longest prefix of [s] whose characters satisfy [p], and the rest. *)
Fixpoint span (p : ascii -> bool) (s : string) : string * string :=
  match s with
  | EmptyString => (EmptyString, EmptyString)
  | String c s' =>
      if p c then let '(a, b) := span p s' in (String c a, b)
      else (EmptyString, s)
  end.

(** ** Values of a parsed request body

    [express.json()] and [express.urlencoded()] leave a JSON-like value in
    [req.body].  A number is kept as its [Number::toString] text, which is
    what the handlers can observe of it (its truthiness and its string
    conversion). *)

Inductive Val : Type :=
  | Undefined
  | Null
  | Bool (b : bool)
  | Num (text : string)
  | Str (s : string)
  | Arr (items : list Val)
  | Obj (fields : list (string * Val)).

(** ToBoolean. *)
Definition truthy (v : Val) : bool :=
  match v with
  | Undefined | Null => false
  | Bool b => b
  | Num t => negb (String.eqb t "0" || String.eqb t "NaN")
  | Str s => negb (is_empty s)
  | Arr _ | Obj _ => true
  end.

(** ToString; an array joins the conversions of its items with commas,
    [null] and [undefined] items giving the empty string. *)
Fixpoint toString (v : Val) : string :=
  match v with
  | Undefined => "undefined"
  | Null => "null"
  | Bool true => "true"
  | Bool false => "false"
  | Num t => t
  | Str s => s
  | Arr items =>
      (fix join (l : list Val) : string :=
         match l with
         | [] => EmptyString
         | x :: rest =>
             let sx := match x with
                       | Undefined | Null => EmptyString
                       | _ => toString x
                       end in
             match rest with
             | [] => sx
             | _ :: _ => sx ++ "," ++ join rest
             end
         end) items
  | Obj _ => "[object Object]"
  end.

(** Strict equality [===] on the values of a parsed body.  Two objects or
    arrays are equal only when they are the same reference, which a freshly
    parsed body and a literal never are. *)
Definition strict_eq (a b : Val) : bool :=
  match a, b with
  | Undefined, Undefined | Null, Null => true
  | Bool x, Bool y => Bool.eqb x y
  | Num x, Num y => String.eqb x y && negb (String.eqb x "NaN")
  | Str x, Str y => String.eqb x y
  | _, _ => false
  end.

(** SameValueZero, the comparison of [Array.prototype.includes]: strict
    equality except that [NaN] equals itself. *)
Definition same_value_zero (a b : Val) : bool :=
  match a, b with
  | Num x, Num y => String.eqb x y
  | _, _ => strict_eq a b
  end.

(** [arr.includes(x)]. *)
Definition includes (arr : list Val) (x : Val) : bool :=
  existsb (fun y => same_value_zero y x) arr.

(** [arr.indexOf(x)]: the first index holding a value strictly equal to
    [x], or [-1]. *)
Fixpoint indexOf_from (i : Z) (arr : list Val) (x : Val) : Z :=
  match arr with
  | [] => -1
  | y :: rest => if strict_eq y x then i else indexOf_from (i + 1) rest x
  end.

Definition indexOf (arr : list Val) (x : Val) : Z := indexOf_from 0 arr x.

(** Property read [v.name] on a parsed value, as performed by a
    destructuring pattern: [None] stands for the TypeError raised on
    [undefined] and [null]; a missing property reads as [undefined]. *)
Fixpoint assoc (name : string) (fields : list (string * Val)) : Val :=
  match fields with
  | [] => Undefined
  | (k, v) :: rest => if String.eqb k name then v else assoc name rest
  end.

Definition get (v : Val) (name : string) : option Val :=
  match v with
  | Undefined | Null => None
  | Obj fields => Some (assoc name fields)
  | _ => Some Undefined
  end.

(** ** Regular expressions

    The fragment of the pattern language used by the service, with a
    backtracking matcher that returns every state in which a match of the
    pattern can end.  A state is the unread rest of the input together
    with a flag telling whether the position is the start of the input. *)

Inductive Regex : Type :=
  | Bol                      (* ^ *)
  | Eol                      (* $ *)
  | Digit                    (* \d *)
  | Lit (c : ascii)
  | Seq (r1 r2 : Regex)
  | Repeat (r : Regex) (n : nat).   (* r{n} *)

Definition MatchState : Type := bool * string.

Fixpoint iter_match (step : MatchState -> list MatchState) (n : nat)
    (st : MatchState) : list MatchState :=
  match n with
  | O => [st]
  | S n' => flat_map (iter_match step n') (step st)
  end.

Fixpoint exec (r : Regex) (st : MatchState) : list MatchState :=
  match r with
  | Bol => if fst st then [st] else []
  | Eol => if is_empty (snd st) then [st] else []
  | Digit =>
      match snd st with
      | String c rest => if is_digit c then [(false, rest)] else []
      | EmptyString => []
      end
  | Lit c =>
      match snd st with
      | String c' rest => if Ascii.eqb c c' then [(false, rest)] else []
      | EmptyString => []
      end
  | Seq r1 r2 => flat_map (exec r2) (exec r1 st)
  | Repeat r' n => iter_match (exec r') n st
  end.

(** The search of [test]: try a match at every start index, left to
    right, the last one being the end of the input. *)
Fixpoint search (r : Regex) (start : bool) (s : string) {struct s} : bool :=
  match exec r (start, s) with
  | _ :: _ => true
  | [] =>
      match s with
      | String _ rest => search r false rest
      | EmptyString => false
      end
  end.

(** [regex.test(v)]: the argument is converted to a string first. *)
Definition test (r : Regex) (v : Val) : bool := search r true (toString v).

(** ** String-to-number conversion

    [isNaN(s)] converts the string with [Number(s)], which recognises the
    StringNumericLiteral grammar: optional white space around either
    nothing (the value [0]), a signed decimal literal (digits with an
    optional fraction and exponent, or [Infinity]), or an unsigned binary,
    octal or hexadecimal integer literal. *)

Definition strip_sign (s : string) : string :=
  match s with
  | String c rest =>
      if Ascii.eqb c "+" || Ascii.eqb c "-" then rest else s
  | EmptyString => s
  end.

Definition nonempty_all (p : ascii -> bool) (s : string) : bool :=
  negb (is_empty s) && all_chars p s.

(** ExponentPart, optional: nothing, or [e]/[E] and a signed integer. *)
Definition exponent_opt (s : string) : bool :=
  match s with
  | EmptyString => true
  | String c rest =>
      (Ascii.eqb c "e" || Ascii.eqb c "E")
      && nonempty_all is_digit (strip_sign rest)
  end.

Definition unsigned_decimal (s : string) : bool :=
  if String.eqb s "Infinity" then true
  else
    let '(int, r1) := span is_digit s in
    match r1 with
    | String "." r2 =>
        let '(frac, r3) := span is_digit r2 in
        (negb (is_empty int) || negb (is_empty frac)) && exponent_opt r3
    | _ => negb (is_empty int) && exponent_opt r1
    end.

Definition non_decimal_integer (s : string) : bool :=
  match s with
  | String "0" (String c rest) =>
      ((Ascii.eqb c "x" || Ascii.eqb c "X") && nonempty_all is_hex_digit rest)
      || ((Ascii.eqb c "o" || Ascii.eqb c "O")
          && nonempty_all is_octal_digit rest)
      || ((Ascii.eqb c "b" || Ascii.eqb c "B")
          && nonempty_all is_binary_digit rest)
  | _ => false
  end.

(** [true] when [Number(s)] is a number (possibly an infinity), [false]
    when it is [NaN]. *)
Definition is_numeric (s : string) : bool :=
  let t := trim s in
  is_empty t || non_decimal_integer t || unsigned_decimal (strip_sign t).

(** [isNaN(v)]: [v] is converted to a number first; an array or object
    goes through its string conversion. *)
Definition isNaN (v : Val) : bool :=
  match v with
  | Undefined => true
  | Null | Bool _ => false
  | Num t => String.eqb t "NaN"
  | Str _ | Arr _ | Obj _ => negb (is_numeric (toString v))
  end.

(** ** [parseInt]

    The result of [parseInt(s)] with no radix: [NaN], or the integer read
    from the longest digit prefix after leading white space, a sign and,
    for radix 16, a [0x] prefix.  The integer is kept exact; the rounding
    of integers beyond 2^53 to a double is not represented. *)

Inductive Number : Type :=
  | NaN
  | Int (z : Z).

Definition digit_value (c : ascii) : Z :=
  let n := Z.of_N (code c) in
  if is_digit c then n - 48
  else if (97 <=? n) then n - 87
  else n - 55.

Fixpoint digits_value (radix : Z) (acc : Z) (s : string) : Z :=
  match s with
  | EmptyString => acc
  | String c rest => digits_value radix (radix * acc + digit_value c) rest
  end.

Definition parse_digits (radix : Z) (is_dig : ascii -> bool) (sign : Z)
    (s : string) : Number :=
  let '(ds, _) := span is_dig s in
  if is_empty ds then NaN else Int (sign * digits_value radix 0 ds).

Definition parseInt (v : Val) : Number :=
  let s := trimStart (toString v) in
  let sign := match s with
              | String "-" _ => -1
              | _ => 1
              end in
  let s := strip_sign s in
  match s with
  | String "0" (String c rest) =>
      if Ascii.eqb c "x" || Ascii.eqb c "X"
      then parse_digits 16 is_hex_digit sign rest
      else parse_digits 10 is_digit sign s
  | _ => parse_digits 10 is_digit sign s
  end.

End Js.

(** ** Errors and the exception monad

    A thrown JavaScript error, with the [code] a driver error may carry.
    A computation that may throw returns [inl error] or [inr value]. *)

Record Error : Type := mkError { code : option string; message : string }.

Definition Exc (A : Type) : Type := Error + A.

Definition ret {A} (x : A) : Exc A := inr x.
Definition throw {A} (e : Error) : Exc A := inl e.

Definition bind {A B} (m : Exc A) (k : A -> Exc B) : Exc B :=
  match m with
  | inl e => inl e
  | inr x => k x
  end.

Notation "'let!' x ':=' m 'in' k" := (bind m (fun x => k))
  (at level 10, x pattern, m at level 100, k at level 200).

(** [try { body } catch (error) { handler }]. *)
Definition try_catch {A} (body : Exc A) (handler : Error -> A) : A :=
  match body with
  | inl e => handler e
  | inr x => x
  end.

Definition TypeError (msg : string) : Error :=
  {| code := None; message := msg |}.

(** The method call [v.trim()]: only strings have the method. *)
Definition call_trim (name : string) (v : Js.Val) : Exc string :=
  match v with
  | Js.Str s => ret (Js.trim s)
  | _ => throw (TypeError (name ++ ".trim is not a function"))
  end.

(** The destructuring [const { a, b, c, d } = v]. *)
Definition destructure (v : Js.Val) (name : string) : Exc Js.Val :=
  match Js.get v name with
  | Some x => ret x
  | None =>
      throw (TypeError ("Cannot destructure property '" ++ name ++ "'"))
  end.

(** ** The [Attendance] table

    [id INT AUTO_INCREMENT PRIMARY KEY] is the key of a finite map, the
    other columns form the row.  [date] holds the canonical [YYYY-MM-DD]
    text of the DATE value, on which the order of the texts is the order
    of the dates; [created_at] is a timestamp in seconds. *)

Module Sql.

Record Row : Type := mkRow {
  employeeName : string;
  employeeID : string;
  date : string;
  status : string;
  created_at : Z
}.

(** The three statements of the service, with their bound parameters. *)
Inductive Stmt : Type :=
  (* SELECT * FROM Attendance ORDER BY date DESC, created_at DESC *)
  | SelectAll
  (* INSERT INTO Attendance (employeeName, employeeID, date, status)
     VALUES (?, ?, ?, ?) *)
  | Insert (employeeName employeeID : string) (date status : Js.Val)
  (* DELETE FROM Attendance WHERE id = ? *)
  | Delete (id : Js.Number).

(** The header [pool.execute] resolves to for a modification. *)
Record Header : Type := mkHeader { affectedRows : Z; insertId : Z }.

(** The store: the table, the AUTO_INCREMENT counter, the value of
    CURRENT_TIMESTAMP, and the statements the server currently fails
    (connection lost, value rejected by the SQL mode, ...). *)
Record Db : Type := mkDb {
  table : gmap Z Row;
  auto_increment : Z;
  current_timestamp : Z;
  refuses : Stmt -> option Error
}.

(** [ORDER BY date DESC, created_at DESC]: [a] may come before [b]. *)
Definition before (a b : Z * Row) : Prop :=
  (date (snd a) ≠ date (snd b) ∧ String.le (date (snd b)) (date (snd a)))
  ∨ (date (snd a) = date (snd b) ∧ created_at (snd b) ≤ created_at (snd a)).

#[global] Instance before_dec : RelDecision before.
Proof. intros a b. unfold before. apply _. Defined.

Definition select_all (db : Db) : list (Z * Row) :=
  merge_sort before (map_to_list (table db)).

Definition insert_row (db : Db) (r : Row) : Db :=
  {| table := <[auto_increment db := r]> (table db);
     auto_increment := auto_increment db + 1;
     current_timestamp := current_timestamp db;
     refuses := refuses db |}.

Definition delete_row (db : Db) (id : Z) : Db :=
  {| table := delete id (table db);
     auto_increment := auto_increment db;
     current_timestamp := current_timestamp db;
     refuses := refuses db |}.

(** [pool.execute(sql, params)], one function per statement.  Each throws
    when the store refuses the statement, leaving the store as it was, and
    runs the statement otherwise. *)

Definition select (db : Db) : Exc (list (Z * Row)) :=
  match refuses db SelectAll with
  | Some e => throw e
  | None => ret (select_all db)
  end.

(** The driver and the server are not part of the service; they are
    taken to behave as follows.  A parameter of a kind the DATE and ENUM
    columns cannot take (anything but a string) is an error of the
    driver; a generated key that is already taken is a duplicate-key
    error of the server. *)
Definition insert (db : Db) (n i : string) (d s : Js.Val) : Exc (Header * Db) :=
  match refuses db (Insert n i d s) with
  | Some e => throw e
  | None =>
      match d, s with
      | Js.Str d', Js.Str s' =>
          match table db !! auto_increment db with
          | Some _ =>
              throw {| code := Some "ER_DUP_ENTRY";
                       message := "Duplicate entry for key 'PRIMARY'" |}
          | None =>
              let r := {| employeeName := n; employeeID := i; date := d';
                          status := s';
                          created_at := current_timestamp db |} in
              ret ({| affectedRows := 1; insertId := auto_increment db |},
                   insert_row db r)
          end
      | _, _ =>
          throw {| code := Some "ER_WRONG_ARGUMENTS";
                   message := "Incorrect arguments to mysqld_stmt_execute" |}
      end
  end.

(** An [id] that is not an integer matches no row. *)
Definition delete (db : Db) (id : Js.Number) : Exc (Header * Db) :=
  match refuses db (Delete id) with
  | Some e => throw e
  | None =>
      match id with
      | Js.Int k =>
          match table db !! k with
          | Some _ =>
              ret ({| affectedRows := 1; insertId := 0 |}, delete_row db k)
          | None => ret ({| affectedRows := 0; insertId := 0 |}, db)
          end
      | Js.NaN => ret ({| affectedRows := 0; insertId := 0 |}, db)
      end
  end.

End Sql.

(** ** The HTTP side *)

(** The double quote character, for the texts that contain it. *)
Definition dq : string := String "034"%char EmptyString.

(** The argument of [res.json]: booleans, integers (row ids and counts),
    strings, values of the request echoed back, the rows handed over by
    the driver, and objects.  [JNoBody] stands for an answer ended without
    a body. *)
Inductive Json : Type :=
  | JBool (b : bool)
  | JInt (z : Z)
  | JStr (s : string)
  | JVal (v : Js.Val)
  | JRows (rows : list (Z * Sql.Row))
  | JObj (fields : list (string * Json))
  | JNoBody.

Record Response : Type := mkResponse { status : Z; body : Json }.

(** [res.status(code).json(obj)], and [res.json(obj)] whose status is 200. *)
Definition res_status_json (code : Z) (fields : list (string * Json)) : Response :=
  {| status := code; body := JObj fields |}.

Definition res_json (fields : list (string * Json)) : Response :=
  res_status_json 200 fields.

(** The configuration object of the pool; the connection settings read
    from the environment play no part in what follows. *)
Record DbConfig : Type := mkDbConfig {
  waitForConnections : bool;
  connectionLimit : Z;
  queueLimit : Z;
  acquireTimeout : Z
}.

Definition dbConfig : DbConfig :=
  {| waitForConnections := true; connectionLimit := 10; queueLimit := 0;
     acquireTimeout := 60000 |}.

Inductive Pool : Type :=
  | createPool (config : DbConfig).

(** The module variable [pool] ([None] while it is [undefined]) and the
    store behind it. *)
Record Server : Type := mkServer { pool : option Pool; db : Sql.Db }.

Definition with_db (st : Server) (d : Sql.Db) : Server :=
  {| pool := pool st; db := d |}.

(** What the process reads from its surroundings: [process.env.FRONTEND_URL]
    and the text of [new Date().toISOString()]. *)
Record Env : Type := mkEnv { FRONTEND_URL : option string; now_iso : string }.

Definition of_option (x : option string) : Js.Val :=
  match x with
  | Some s => Js.Str s
  | None => Js.Undefined
  end.

(** *** CORS *)

Definition allowedOrigins (env : Env) : list Js.Val :=
  filter (fun v => Is_true (Js.truthy v))
    [ Js.Str "http://localhost:3000";
      Js.Str "https://attendance-tracker-frontend.vercel.app";
      Js.Str "https://attendance-tracker.vercel.app";
      of_option (FRONTEND_URL env) ].

(** [corsOptions.origin]: the result is what is passed to [callback],
    [inr true] for [callback(null, true)] and [inl e] for [callback(e)]. *)
Definition corsOptions_origin (env : Env) (origin : Js.Val) : Exc bool :=
  if negb (Js.truthy origin) then ret true
  else if negb (Js.indexOf (allowedOrigins env) origin =? -1) then ret true
  else throw (mkError None "Not allowed by CORS").

(** *** Route handlers *)

(** [app.get('/health')] *)
Definition get_health (env : Env) : Response :=
  res_status_json 200
    [ ("status", JStr "OK");
      ("message", JStr "Server is running");
      ("timestamp", JStr (now_iso env)) ].

(** [app.get('/api')] *)
Definition get_api : Response :=
  res_json
    [ ("message", JStr "Employee Attendance Tracker API");
      ("version", JStr "1.0.0");
      ("endpoints",
        JObj [ ("GET /api/attendance", JStr "Get all attendance records");
               ("POST /api/attendance", JStr "Create new attendance record");
               ("DELETE /api/attendance/:id", JStr "Delete attendance record") ]) ].

Definition not_connected : Response :=
  res_status_json 500 [ ("error", JStr "Database not connected") ].

Definition failure (code : Z) (msg : string) : Response :=
  res_status_json code [ ("success", JBool false); ("error", JStr msg) ].

Definition failure_details (msg : string) (e : Error) : Response :=
  res_status_json 500
    [ ("success", JBool false); ("error", JStr msg);
      ("details", JStr (message e)) ].

(** [app.get('/api/attendance')] *)
Definition get_attendance (st : Server) : Response * Server :=
  try_catch
    (match pool st with
     | None => ret (not_connected, st)
     | Some _ =>
         let! rows := Sql.select (db st) in
         ret (res_json [ ("success", JBool true);
                         ("data", JRows rows);
                         ("count", JInt (Z.of_nat (length rows))) ],
              st)
     end)
    (fun error =>
       (failure_details "Failed to fetch attendance records" error, st)).

Definition dateRegex : Js.Regex :=
  Js.Seq Js.Bol
   (Js.Seq (Js.Repeat Js.Digit 4)
    (Js.Seq (Js.Lit "-")
     (Js.Seq (Js.Repeat Js.Digit 2)
      (Js.Seq (Js.Lit "-")
       (Js.Seq (Js.Repeat Js.Digit 2) Js.Eol))))).

Definition required_fields_error : string :=
  "All fields are required: employeeName, employeeID, date, status".

Definition status_error : string :=
  "Status must be " ++ dq ++ "Present" ++ dq ++ " or " ++ dq ++ "Absent" ++ dq.

Definition date_error : string := "Date must be in YYYY-MM-DD format".

(** [app.post('/api/attendance')] *)
Definition post_attendance (st : Server) (req_body : Js.Val) : Response * Server :=
  try_catch
    (match pool st with
     | None => ret (not_connected, st)
     | Some _ =>
         let! employeeName := destructure req_body "employeeName" in
         let! employeeID := destructure req_body "employeeID" in
         let! date := destructure req_body "date" in
         let! status := destructure req_body "status" in
         if negb (Js.truthy employeeName) || negb (Js.truthy employeeID)
            || negb (Js.truthy date) || negb (Js.truthy status)
         then ret (failure 400 required_fields_error, st)
         else if negb (Js.includes [Js.Str "Present"; Js.Str "Absent"] status)
         then ret (failure 400 status_error, st)
         else if negb (Js.test dateRegex date)
         then ret (failure 400 date_error, st)
         else
           let! name := call_trim "employeeName" employeeName in
           let! ident := call_trim "employeeID" employeeID in
           let! (result, d) := Sql.insert (db st) name ident date status in
           ret (res_status_json 201
                  [ ("success", JBool true);
                    ("message", JStr "Attendance recorded successfully");
                    ("id", JInt (Sql.insertId result));
                    ("data",
                      JObj [ ("employeeName", JVal employeeName);
                             ("employeeID", JVal employeeID);
                             ("date", JVal date);
                             ("status", JVal status) ]) ],
                with_db st d)
     end)
    (fun error =>
       if bool_decide (code error = Some "ER_DUP_ENTRY")
       then (failure 400 "Duplicate entry found", st)
       else (failure_details "Failed to record attendance" error, st)).

(** The handler once the pool is there and the body has been destructured:
    the three validation steps, then the insert. *)
Definition post_validated (st : Server) (employeeName employeeID date status : Js.Val) : Response * Server :=
  try_catch
    (if negb (Js.truthy employeeName) || negb (Js.truthy employeeID)
        || negb (Js.truthy date) || negb (Js.truthy status)
     then ret (failure 400 required_fields_error, st)
     else if negb (Js.includes [Js.Str "Present"; Js.Str "Absent"] status)
     then ret (failure 400 status_error, st)
     else if negb (Js.test dateRegex date)
     then ret (failure 400 date_error, st)
     else
       let! name := call_trim "employeeName" employeeName in
       let! ident := call_trim "employeeID" employeeID in
       let! (result, d) := Sql.insert (db st) name ident date status in
       ret (res_status_json 201
              [ ("success", JBool true);
                ("message", JStr "Attendance recorded successfully");
                ("id", JInt (Sql.insertId result));
                ("data",
                  JObj [ ("employeeName", JVal employeeName);
                         ("employeeID", JVal employeeID);
                         ("date", JVal date);
                         ("status", JVal status) ]) ],
            with_db st d))
    (fun error =>
       if bool_decide (code error = Some "ER_DUP_ENTRY")
       then (failure 400 "Duplicate entry found", st)
       else (failure_details "Failed to record attendance" error, st)).

(** [app.delete('/api/attendance/:id')]; [params_id] is [req.params.id],
    a string or [undefined]. *)
Definition delete_attendance (st : Server) (params_id : option string) : Response * Server :=
  try_catch
    (match pool st with
     | None => ret (not_connected, st)
     | Some _ =>
         let id := of_option params_id in
         if negb (Js.truthy id) || Js.isNaN id
         then ret (failure 400 "Valid ID is required", st)
         else
           let! (result, d) := Sql.delete (db st) (Js.parseInt id) in
           if Sql.affectedRows result =? 0
           then ret (failure 404 "Record not found", with_db st d)
           else ret (res_json
                       [ ("success", JBool true);
                         ("message", JStr "Record deleted successfully") ],
                     with_db st d)
     end)
    (fun error => (failure_details "Failed to delete record" error, st)).

(** [app.use('*')], the 404 handler. *)
Definition not_found (originalUrl : string) : Response :=
  failure 404 ("Route " ++ originalUrl ++ " not found").

(** The global error handler. *)
Definition error_handler (error : Error) : Response :=
  res_status_json 500
    [ ("success", JBool false); ("error", JStr "Internal server error");
      ("message", JStr (message error)) ].

(** *** The middleware chain

    A request as the application sees it: its [Origin] header, what the
    body parsers made of its body (a value, or the error they raised), and
    the route it matches.  [Preflight] is any [OPTIONS] request: the
    cors middleware, mounted first, answers it itself when the origin is
    allowed.  A [Response] is what the application hands to Express; the
    omission of the body for [HEAD] and for a conditional [GET] that is
    still fresh is Express's own and is not represented. *)

Inductive Route : Type :=
  | Preflight
  | GetHealth
  | GetApi
  | GetAttendance
  | PostAttendance
  | DeleteAttendance (id : option string)
  | Unmatched (originalUrl : string).

Record Request : Type := mkRequest {
  origin : option string;
  parsed_body : Exc Js.Val;
  route : Route
}.

(** The answer of [cors] to a preflight request from an allowed origin:
    status 204 ([optionsSuccessStatus]) and no body. *)
Definition preflight : Response := {| status := 204; body := JNoBody |}.

(** The chain in registration order: [cors(corsOptions)], which ends a
    preflight request itself, then the body parsers, the routes, the 404
    handler; an error passed on by a middleware goes to the global error
    handler. *)
Definition app (env : Env) (st : Server) (req : Request) : Response * Server :=
  match corsOptions_origin env (of_option (origin req)) with
  | inl e => (error_handler e, st)
  | inr _ =>
      match route req, parsed_body req with
      | Preflight, _ => (preflight, st)
      | _, inl e => (error_handler e, st)
      | GetHealth, inr _ => (get_health env, st)
      | GetApi, inr _ => (get_api, st)
      | GetAttendance, inr _ => get_attendance st
      | PostAttendance, inr req_body => post_attendance st req_body
      | DeleteAttendance id, inr _ => delete_attendance st id
      | Unmatched url, inr _ => (not_found url, st)
      end
  end.

(** ** Start-up *)

(** How the outside world answers one run of [initDatabase]: whether
    [mysql.createPool], [pool.getConnection] and the CREATE TABLE
    statement go through. *)
Record Attempt : Type := mkAttempt {
  createPool_ok : bool;
  getConnection_ok : bool;
  createTable_ok : bool
}.

(** [initDatabase]: the new value of [pool] and the boolean returned. *)
Definition initDatabase (a : Attempt) (p : option Pool) : bool * option Pool :=
  if negb (createPool_ok a) then (false, p)
  else
    let p1 := Some (createPool dbConfig) in
    try_catch
      (let! _ := if getConnection_ok a then ret tt
                 else throw {| code := Some "ECONNREFUSED";
                               message := "connect ECONNREFUSED" |} in
       let! _ := if createTable_ok a then ret tt
                 else throw {| code := Some "ER_DBACCESS_DENIED_ERROR";
                               message := "CREATE command denied" |} in
       ret (true, p1))
      (fun _ => (false, p1)).

(** What the process does that can be seen from outside. *)
Inductive Event : Type :=
  | Attempted (connected : bool)   (* a run of initDatabase *)
  | Listening                      (* app.listen(PORT) *)
  | Slept (ms : Z)                 (* the awaited setTimeout *)
  | Exited (code : Z).             (* process.exit(code) *)

(** The [while (retries < maxRetries)] loop of [startServer], from a given
    value of [retries] and of [pool].  [world n] is the answer of the
    outside world to the run of [initDatabase] made when [retries] is [n]. *)
Equations startServer_loop (maxRetries : nat) (world : nat -> Attempt)
    (retries : nat) (p : option Pool) : option Pool * list Event
    by wf (maxRetries - retries)%nat lt :=
  startServer_loop maxRetries world retries p
    with decide (retries < maxRetries)%nat := {
    | right _ := (p, []);
    | left _ with initDatabase (world retries) p := {
      | (true, p1) := (p1, [Attempted true; Listening]);
      | (false, p1) with decide (S retries < maxRetries)%nat := {
        | left _ :=
            let '(p2, evs) :=
              startServer_loop maxRetries world (S retries) p1 in
            (p2, Attempted false :: Slept 5000 :: evs);
        | right _ := (p1, [Attempted false; Exited 1]) } } }.
Next Obligation.
  lia.
Qed.

Definition maxRetries : nat := 3.

Definition startServer (world : nat -> Attempt) : option Pool * list Event :=
  startServer_loop maxRetries world 0 None.

(** Whether a run of [initDatabase] gets through all three calls. *)
Definition connected (a : Attempt) : bool :=
  createPool_ok a && getConnection_ok a && createTable_ok a.

Fixpoint attempts (evs : list Event) : nat :=
  match evs with
  | [] => 0
  | Attempted _ :: rest => S (attempts rest)
  | _ :: rest => attempts rest
  end.

Fixpoint listens (evs : list Event) : nat :=
  match evs with
  | [] => 0
  | Listening :: rest => S (listens rest)
  | _ :: rest => listens rest
  end.

(** The runs of the start-up supervisor that has [n] attempts left: it
    connects and listens, or fails and sleeps five seconds before the
    next attempt, or fails for the last time and exits with code 1. *)
Inductive Startup : nat -> list Event -> Prop :=
  | startup_done : Startup 0 []
  | startup_ready n : Startup (S n) [Attempted true; Listening]
  | startup_retry n evs :
      Startup (S n) evs ->
      Startup (S (S n)) (Attempted false :: Slept 5000 :: evs)
  | startup_failed : Startup 1 [Attempted false; Exited 1].

(** The outside world in which the database never answers, and the one
    in which it answers from the second attempt on. *)
Definition never_up (n : nat) : Attempt :=
  {| createPool_ok := true; getConnection_ok := false; createTable_ok := true |}.

Definition up_on_second (n : nat) : Attempt :=
  {| createPool_ok := true; getConnection_ok := (1 <=? n)%nat;
     createTable_ok := true |}.

(** ** Sample states and requests *)

Definition empty_db : Sql.Db :=
  {| Sql.table := ∅; Sql.auto_increment := 1; Sql.current_timestamp := 0;
     Sql.refuses := fun _ => None |}.

Definition ready : Server :=
  {| pool := Some (createPool dbConfig); db := empty_db |}.

(** The server before [initDatabase] has set [pool]. *)
Definition idle : Server := {| pool := None; db := empty_db |}.

Definition env0 : Env :=
  {| FRONTEND_URL := None; now_iso := "2024-03-01T08:00:00.000Z" |}.

Definition request (o : option string) (r : Route) : Request :=
  {| origin := o; parsed_body := inr (Js.Obj []); route := r |}.

Definition cors_error : Error :=
  {| code := None; message := "Not allowed by CORS" |}.

(** A server whose table holds one row, under the key 12. *)
Definition stocked : Server :=
  {| pool := Some (createPool dbConfig);
     db := {| Sql.table :=
                {[ 12 := {| Sql.employeeName := "Alice Smith";
                            Sql.employeeID := "E1";
                            Sql.date := "2024-03-01";
                            Sql.status := "Present";
                            Sql.created_at := 1709280000 |} ]};
              Sql.auto_increment := 13;
              Sql.current_timestamp := 1709290000;
              Sql.refuses := fun _ => None |} |}.

(** A server whose table holds three rows: two of the same day, entered
    at different times, and one of the next day entered before both. *)
Definition shelf_row (d : string) (t : Z) : Sql.Row :=
  {| Sql.employeeName := "Alice Smith"; Sql.employeeID := "E1";
     Sql.date := d; Sql.status := "Present"; Sql.created_at := t |}.

Definition shelf : Server :=
  {| pool := Some (createPool dbConfig);
     db := {| Sql.table :=
                <[1 := shelf_row "2024-03-01" 100]>
                  (<[2 := shelf_row "2024-03-01" 200]>
                     {[ 3 := shelf_row "2024-03-02" 50 ]});
              Sql.auto_increment := 4;
              Sql.current_timestamp := 300;
              Sql.refuses := fun _ => None |} |}.

Definition deleted_ok : Response :=
  res_json [ ("success", JBool true);
             ("message", JStr "Record deleted successfully") ].

Definition attendance_body (n i d s : string) : Js.Val :=
  Js.Obj [ ("employeeName", Js.Str n); ("employeeID", Js.Str i);
           ("date", Js.Str d); ("status", Js.Str s) ].

(** ** The wording of the specification, for comparison with the code *)

(** "four digits, dash, two digits, dash, two digits" *)
Definition matches_4_2_2 (s : string) : Prop :=
  ∃ y m d : string,
    String.length y = 4%nat ∧ String.length m = 2%nat
    ∧ String.length d = 2%nat
    ∧ Js.all_chars Js.is_digit y = true ∧ Js.all_chars Js.is_digit m = true
    ∧ Js.all_chars Js.is_digit d = true
    ∧ s = y ++ "-" ++ m ++ "-" ++ d.

(** "a JSON object containing a boolean field success" *)
Fixpoint field (name : string) (fields : list (string * Json)) : option Json :=
  match fields with
  | [] => None
  | (k, v) :: rest => if String.eqb k name then Some v else field name rest
  end.

Definition has_success (r : Response) : Prop :=
  ∃ fields b, body r = JObj fields ∧ field "success" fields = Some (JBool b).

(** "a member of the allow-list consisting of three fixed origins plus the
    externally-configured FRONTEND_URL value (when set)" *)
Definition allow_list (env : Env) : list string :=
  [ "http://localhost:3000";
    "https://attendance-tracker-frontend.vercel.app";
    "https://attendance-tracker.vercel.app" ]
  ++ match FRONTEND_URL env with
     | Some url => [url]
     | None => []
     end.

(** "allows a request if and only if either the request carries no Origin
    header, or its Origin is string-equal to a member of the allow-list" *)
Definition claimed_allowed (env : Env) (origin : option string) : Prop :=
  origin = None ∨ ∃ s, origin = Some s ∧ s ∈ allow_list env.

(** The origin decision as a predicate on the [Origin] header. *)
Definition cors_allows (env : Env) (origin : option string) : bool :=
  match corsOptions_origin env (of_option origin) with
  | inr allowed => allowed
  | inl _ => false
  end.

(** ** Runs of the service

    Requests are handled one after the other: a handler issues a single
    statement, so its effect on the store is that of one step.  Between
    two requests the store may change its clock and the statements it
    refuses; nothing else touches the table. *)

Inductive Step : Type :=
  | Serve (env : Env) (req : Request)
  | StoreChange (now : Z) (refuses : Sql.Stmt -> option Error).

Definition store_change (d : Sql.Db) (now : Z)
    (refuses : Sql.Stmt -> option Error) : Sql.Db :=
  {| Sql.table := Sql.table d;
     Sql.auto_increment := Sql.auto_increment d;
     Sql.current_timestamp := now;
     Sql.refuses := refuses |}.

Definition step (st : Server) (s : Step) : list Response * Server :=
  match s with
  | Serve env req => let '(resp, st') := app env st req in ([resp], st')
  | StoreChange now refuses =>
      ([], with_db st (store_change (db st) now refuses))
  end.

(** The answers given along a run, in order, and the state it ends in. *)
Fixpoint run (st : Server) (steps : list Step) : list Response * Server :=
  match steps with
  | [] => ([], st)
  | s :: rest =>
      let '(out, st1) := step st s in
      let '(outs, st2) := run st1 rest in
      ((out ++ outs)%list, st2)
  end.

(** The 201 answer of the POST handler. *)
Definition created (id : Z) (employeeName employeeID date status : Js.Val) : Response :=
  res_status_json 201
    [ ("success", JBool true);
      ("message", JStr "Attendance recorded successfully");
      ("id", JInt id);
      ("data", JObj [ ("employeeName", JVal employeeName);
                      ("employeeID", JVal employeeID);
                      ("date", JVal date);
                      ("status", JVal status) ]) ].

(** The [id] announced by an answer with status 201. *)
Definition created_id (r : Response) : option Z :=
  if status r =? 201 then
    match body r with
    | JObj fields =>
        match field "id" fields with
        | Some (JInt z) => Some z
        | _ => None
        end
    | _ => None
    end
  else None.

Definition issued (rs : list Response) : list Z := omap created_id rs.

(** No white space at the start, none at the end. *)
Definition leading_space (s : string) : bool :=
  match s with
  | String c _ => Js.is_space c
  | EmptyString => false
  end.

Fixpoint trailing_space (s : string) : bool :=
  match s with
  | EmptyString => false
  | String c EmptyString => Js.is_space c
  | String _ rest => trailing_space rest
  end.

Definition clean (s : string) : Prop :=
  leading_space s = false ∧ trailing_space s = false.

(** What the handlers let into the table: a status of the enumeration, a
    date of the accepted shape, a name and an identifier without outer
    white space. *)
Definition valid_row (r : Sql.Row) : Prop :=
  (Sql.status r = "Present" ∨ Sql.status r = "Absent")
  ∧ matches_4_2_2 (Sql.date r)
  ∧ clean (Sql.employeeName r) ∧ clean (Sql.employeeID r).

Definition rows_valid (d : Sql.Db) : Prop :=
  ∀ k r, Sql.table d !! k = Some r → valid_row r.

(** Every key in use is below the AUTO_INCREMENT counter. *)
Definition keys_below_counter (d : Sql.Db) : Prop :=
  ∀ k, is_Some (Sql.table d !! k) → k < Sql.auto_increment d.

(** The row written by an accepted request. *)
Definition new_row (d : Sql.Db) (n i dt s : string) : Sql.Row :=
  {| Sql.employeeName := Js.trim n; Sql.employeeID := Js.trim i;
     Sql.date := dt; Sql.status := s;
     Sql.created_at := Sql.current_timestamp d |}.

(** The time spent in the awaited timeouts, in milliseconds. *)
Fixpoint slept (evs : list Event) : Z :=
  match evs with
  | [] => 0
  | Slept ms :: rest => ms + slept rest
  | _ :: rest => slept rest
  end.

(** The status codes the service uses, and the agreement of the
    [success] flag with the status. *)
Definition known_status (code : Z) : Prop :=
  code = 200 ∨ code = 201 ∨ code = 400 ∨ code = 404 ∨ code = 500.

Definition flag_agrees (r : Response) : Prop :=
  ∀ fields b,
    body r = JObj fields → field "success" fields = Some (JBool b) →
    (b = true ↔ status r < 400).

Definition answer_ok (r : Response) : Prop :=
  known_status (status r) ∧ flag_agrees r.

Definition post_request (n i d s : string) : Request :=
  {| origin := None; parsed_body := inr (attendance_body n i d s);
     route := PostAttendance |}.

(** Two identical creations a tick apart, then the deletion of the
    first. *)
Definition sample_steps : list Step :=
  [ Serve env0 (post_request " Alice Smith" "E1" "2024-03-01" "Present");
    StoreChange 5 (fun _ => None);
    Serve env0 (post_request " Alice Smith" "E1" "2024-03-01" "Present");
    Serve env0 (request None (DeleteAttendance (Some "1"))) ].

(** A server whose store has lost its connection. *)
Definition lost : Error :=
  {| code := Some "PROTOCOL_CONNECTION_LOST";
     message := "Connection lost: The server closed the connection." |}.

Definition down : Server :=
  {| pool := Some (createPool dbConfig);
     db := store_change empty_db 0 (fun _ => Some lost) |}.

Example parseInt_examples :
  map (fun s => Js.parseInt (Js.Str s))
    ["12.5"; " -42abc"; "0x1F"; ".5"; "Infinity"; "1e3"; "-0X1f"; "0x"; "007"]
  = [Js.Int 12; Js.Int (-42); Js.Int 31; Js.NaN; Js.NaN; Js.Int 1;
     Js.Int (-31); Js.NaN; Js.Int 7].
Proof. reflexivity. Qed.

Example isNaN_examples :
  map (fun s => Js.isNaN (Js.Str s))
    ["12.5"; "abc"; ""; " "; "1e3"; "0x10"; "-0x10"; "."; "5."; ".5";
     "+Infinity"; "infinity"; "1e"; "12px"; "0b"; "0b101"; " 7 "; "1 2";
     "--1"; "1e+5"; "1.5.2"]
  = [false; true; false; false; false; false; true; true; false; false;
     false; true; true; true; true; false; false; true;
     true; false; true].
Proof. reflexivity. Qed.

Example trim_examples :
  Js.trim "Alice Smith " = "Alice Smith" /\ Js.trim " E1 " = "E1"
  /\ Js.trim "   " = "".
Proof. repeat split; reflexivity. Qed.

Example toString_examples :
  Js.toString (Js.Arr [Js.Str "2024-03-01"]) = "2024-03-01"
  /\ Js.toString (Js.Arr [Js.Num "1"; Js.Null; Js.Str "a"]) = "1,,a".
Proof. split; reflexivity. Qed.

(** * Properties *)

(** ** The date pattern *)

Section Regex.
Import Js.

Lemma append_empty_r (s : string) : s ++ EmptyString = s.
Proof.
  induction s as [|c s IH]; [reflexivity|].
  change (String c (s ++ EmptyString) = String c s). f_equal. exact IH.
Qed.

Lemma exec_Seq r1 r2 st st' :
  In st' (exec (Seq r1 r2) st) ↔ ∃ mid, In mid (exec r1 st) ∧ In st' (exec r2 mid).
Proof. simpl. rewrite in_flat_map. reflexivity. Qed.

Lemma exec_Digit st st' :
  In st' (exec Digit st) →
  ∃ c, snd st = String c (snd st') ∧ is_digit c = true.
Proof.
  destruct st as [f [|c rest]]; simpl; [tauto|].
  destruct (is_digit c) eqn:E; simpl; [|tauto].
  intros [<-|[]]. eauto.
Qed.

Lemma exec_Lit c st st' :
  In st' (exec (Lit c) st) → snd st = String c (snd st').
Proof.
  destruct st as [f [|c' rest]]; simpl; [tauto|].
  destruct (Ascii.eqb_spec c c'); simpl; [|tauto].
  intros [<-|[]]. subst. reflexivity.
Qed.

Lemma exec_Eol st st' : In st' (exec Eol st) → snd st = EmptyString.
Proof.
  destruct st as [f [|c rest]]; simpl; [reflexivity | tauto].
Qed.

Lemma exec_Repeat_Digit n st st' :
  In st' (exec (Repeat Digit n) st) →
  ∃ ds, String.length ds = n ∧ all_chars is_digit ds = true
        ∧ snd st = ds ++ snd st'.
Proof.
  simpl. revert st. induction n as [|n IH]; intros st; simpl.
  - intros [<-|[]]. exists EmptyString. auto.
  - rewrite in_flat_map. intros (mid & Hmid & Hrest).
    apply (exec_Digit st mid) in Hmid as (c & Hst & Hc).
    apply IH in Hrest as (ds & Hlen & Hds & Hmid).
    exists (String c ds). simpl. rewrite Hc, Hds, Hlen, Hst, Hmid. auto.
Qed.

Lemma search_Bol_false r s : search (Seq Bol r) false s = false.
Proof. induction s as [|c s IH]; simpl; auto. Qed.

Lemma dateRegex_matches s :
  search dateRegex true s = true → matches_4_2_2 s.
Proof.
  intros H.
  assert (∃ st', In st' (exec dateRegex (true, s))) as [st' Hst'].
  { destruct s as [|c s]; cbn [search] in H.
    - destruct (exec dateRegex (true, EmptyString)) as [|x l]; [discriminate|].
      exists x. left. reflexivity.
    - destruct (exec dateRegex (true, String c s)) as [|x l].
      + unfold dateRegex in H. rewrite search_Bol_false in H. discriminate.
      + exists x. left. reflexivity. }
  unfold dateRegex in Hst'.
  apply exec_Seq in Hst' as (s0 & H0 & Hst').
  assert (s0 = (true, s)) as -> by (simpl in H0; destruct H0 as [<-|[]]; reflexivity).
  apply exec_Seq in Hst' as (s1 & H1 & Hst').
  apply exec_Seq in Hst' as (s2 & H2 & Hst').
  apply exec_Seq in Hst' as (s3 & H3 & Hst').
  apply exec_Seq in Hst' as (s4 & H4 & Hst').
  apply exec_Seq in Hst' as (s5 & H5 & Hst').
  apply exec_Repeat_Digit in H1 as (y & Hy & Hyd & E1).
  apply exec_Lit in H2. apply exec_Repeat_Digit in H3 as (m & Hm & Hmd & E3).
  apply exec_Lit in H4. apply exec_Repeat_Digit in H5 as (d & Hd & Hdd & E5).
  apply exec_Eol in Hst'.
  exists y, m, d. repeat split; auto.
  simpl in E1. rewrite E1, H2, E3, H4, E5, Hst'.
  rewrite append_empty_r. reflexivity.
Qed.

Lemma digits_of_length_2 s :
  String.length s = 2%nat → all_chars is_digit s = true →
  ∃ a b, s = String a (String b EmptyString)
         ∧ is_digit a = true ∧ is_digit b = true.
Proof.
  destruct s as [|a [|b [|c s]]]; simpl; try discriminate.
  intros _ H. apply andb_prop in H as [Ha H]. apply andb_prop in H as [Hb _].
  eauto.
Qed.

Lemma matches_dateRegex s :
  matches_4_2_2 s → search dateRegex true s = true.
Proof.
  intros (y & m & d & Hy & Hm & Hd & Ay & Am & Ad & ->).
  destruct y as [|y1 [|y2 yy]]; try discriminate.
  simpl in Hy, Ay.
  apply andb_prop in Ay as [A1 Ay]. apply andb_prop in Ay as [A2 Ay].
  destruct (digits_of_length_2 yy) as (y3 & y4 & -> & A3 & A4); [lia|auto|].
  destruct (digits_of_length_2 m Hm Am) as (m1 & m2 & -> & B1 & B2).
  destruct (digits_of_length_2 d Hd Ad) as (d1 & d2 & -> & C1 & C2).
  cbv [String.append test toString search dateRegex].
  cbn. rewrite A1. cbn. rewrite A2. cbn. rewrite A3. cbn. rewrite A4. cbn.
  rewrite B1. cbn. rewrite B2. cbn. rewrite C1. cbn. rewrite C2. reflexivity.
Qed.

Lemma dateRegex_spec s : test dateRegex (Str s) = true ↔ matches_4_2_2 s.
Proof. split; [apply dateRegex_matches | apply matches_dateRegex]. Qed.

End Regex.

(** ** The POST handler *)

Lemma includes_status (v : Js.Val) :
  Js.includes [Js.Str "Present"; Js.Str "Absent"] v = true
  ↔ v = Js.Str "Present" ∨ v = Js.Str "Absent".
Proof.
  unfold Js.includes. cbn [existsb]. rewrite !orb_true_iff.
  split.
  - intros [H|[H|H]]; [| |discriminate]; destruct v;
      cbn [Js.same_value_zero Js.strict_eq] in H;
      try discriminate; apply String.eqb_eq in H; subst; auto.
  - intros [->| ->]; cbn [Js.same_value_zero Js.strict_eq];
      rewrite String.eqb_refl; auto.
Qed.

Lemma includes_status_false (v : Js.Val) :
  v ≠ Js.Str "Present" → v ≠ Js.Str "Absent" →
  Js.includes [Js.Str "Present"; Js.Str "Absent"] v = false.
Proof.
  intros H1 H2.
  destruct (Js.includes [Js.Str "Present"; Js.Str "Absent"] v) eqn:E; auto.
  apply includes_status in E. tauto.
Qed.

Lemma post_attendance_destructured st p req_body employeeName employeeID date status :
  pool st = Some p →
  Js.get req_body "employeeName" = Some employeeName →
  Js.get req_body "employeeID" = Some employeeID →
  Js.get req_body "date" = Some date →
  Js.get req_body "status" = Some status →
  post_attendance st req_body
  = post_validated st employeeName employeeID date status.
Proof.
  intros Hp H1 H2 H3 H4. unfold post_attendance, post_validated, destructure.
  rewrite Hp, H1, H2, H3, H4. reflexivity.
Qed.

Lemma post_catch_not (st : Server) (msg : string) (e : Error) :
  msg ≠ "Duplicate entry found" →
  fst (if bool_decide (code e = Some "ER_DUP_ENTRY")
       then (failure 400 "Duplicate entry found", st)
       else (failure_details "Failed to record attendance" e, st))
  ≠ failure 400 msg.
Proof.
  intros Hmsg. case_bool_decide as Hc; cbn [fst]; intros Heq.
  - inversion Heq. congruence.
  - inversion Heq.
Qed.

(** Past the status check, the handler never answers with the status
    message; past the date check, never with the date message. *)
Lemma post_validated_past_checks st employeeName employeeID date status msg :
  Js.truthy employeeName = true → Js.truthy employeeID = true →
  Js.truthy date = true → Js.truthy status = true →
  Js.includes [Js.Str "Present"; Js.Str "Absent"] status = true →
  msg ≠ "Duplicate entry found" →
  (Js.test dateRegex date = false → msg ≠ date_error) →
  fst (post_validated st employeeName employeeID date status)
  ≠ failure 400 msg.
Proof.
  intros T1 T2 T3 T4 Hin Hdup Hdate. unfold post_validated.
  rewrite T1, T2, T3, T4, Hin. cbn [negb orb].
  destruct (Js.test dateRegex date) eqn:Ht; cbn [negb].
  - destruct (call_trim "employeeName" employeeName) as [e|n];
      cbn [bind try_catch]; [apply post_catch_not, Hdup|].
    destruct (call_trim "employeeID" employeeID) as [e|i];
      cbn [bind try_catch]; [apply post_catch_not, Hdup|].
    destruct (Sql.insert (db st) n i date status) as [e|[result d]];
      cbn [bind try_catch]; [apply post_catch_not, Hdup|].
    cbn [ret fst]. intros Heq. inversion Heq.
  - cbn [ret try_catch fst]. intros Heq. apply (Hdate eq_refl).
    inversion Heq. reflexivity.
Qed.

(** C2: with all four fields present, a [status] other than exactly
    [Present] or [Absent] (the lowercase [present] is one) gives the 400
    answer with the status message and leaves the store as it was; any
    string other than the two gives a 400 answer with an error message
    whatever the other fields are; and a [status] that is one of the two
    passes the check: the answer is not the status error. *)
Theorem C2_status_check st p req_body employeeName employeeID date status :
  pool st = Some p →
  Js.get req_body "employeeName" = Some employeeName →
  Js.get req_body "employeeID" = Some employeeID →
  Js.get req_body "date" = Some date →
  Js.get req_body "status" = Some status →
  (∀ s, status = Js.Str s → s ≠ "Present" → s ≠ "Absent" →
     ∃ msg, post_attendance st req_body = (failure 400 msg, st))
  ∧ (Js.truthy employeeName = true → Js.truthy employeeID = true →
     Js.truthy date = true → Js.truthy status = true →
     (status ≠ Js.Str "Present" → status ≠ Js.Str "Absent" →
        post_attendance st req_body = (failure 400 status_error, st))
     ∧ (status = Js.Str "Present" ∨ status = Js.Str "Absent" →
        Js.includes [Js.Str "Present"; Js.Str "Absent"] status = true
        ∧ fst (post_attendance st req_body) ≠ failure 400 status_error)).
Proof.
  intros Hp G1 G2 G3 G4.
  rewrite (post_attendance_destructured st p req_body _ _ _ _ Hp G1 G2 G3 G4).
  split.
  - intros s -> N1 N2. unfold post_validated.
    destruct (negb (Js.truthy employeeName) || negb (Js.truthy employeeID)
              || negb (Js.truthy date) || negb (Js.truthy (Js.Str s))).
    + eexists. reflexivity.
    + rewrite includes_status_false by congruence. eexists. reflexivity.
  - intros T1 T2 T3 T4. split.
    + intros N1 N2. unfold post_validated.
      rewrite T1, T2, T3, T4, (includes_status_false _ N1 N2). reflexivity.
    + intros Hs. apply includes_status in Hs. split; [exact Hs|].
      apply post_validated_past_checks; auto; try intros _; discriminate.
Qed.

(** The lowercase [present] is rejected with status 400 and nothing is
    inserted. *)
Lemma C2_status_check_witness :
  post_attendance ready (attendance_body "Alice" "E1" "2024-03-01" "present")
  = (failure 400 status_error, ready).
Proof.
  apply (C2_status_check ready (createPool dbConfig)
           (attendance_body "Alice" "E1" "2024-03-01" "present")
           (Js.Str "Alice") (Js.Str "E1") (Js.Str "2024-03-01")
           (Js.Str "present"));
    try reflexivity; discriminate.
Defined.

(** C3: past the presence and status checks, a [date] string is accepted
    exactly when it has the shape of four digits, a dash, two digits, a
    dash and two digits: any other string gives the 400 answer with the
    date message and an untouched store, and a string of that shape passes
    the check, whether or not it names a day of the calendar. *)
Theorem C3_date_pattern st p req_body employeeName employeeID status d :
  pool st = Some p →
  Js.get req_body "employeeName" = Some employeeName →
  Js.get req_body "employeeID" = Some employeeID →
  Js.get req_body "date" = Some (Js.Str d) →
  Js.get req_body "status" = Some status →
  Js.truthy employeeName = true → Js.truthy employeeID = true →
  Js.truthy (Js.Str d) = true →
  Js.includes [Js.Str "Present"; Js.Str "Absent"] status = true →
  (Js.test dateRegex (Js.Str d) = true ↔ matches_4_2_2 d)
  ∧ (¬ matches_4_2_2 d →
       post_attendance st req_body = (failure 400 date_error, st))
  ∧ (matches_4_2_2 d →
       fst (post_attendance st req_body) ≠ failure 400 date_error)
  ∧ ¬ matches_4_2_2 "01/02/2024"
  ∧ matches_4_2_2 "2024-99-99".
Proof.
  intros Hp G1 G2 G3 G4 T1 T2 T3 Hin.
  assert (T4 : Js.truthy status = true).
  { apply includes_status in Hin as [->| ->]; reflexivity. }
  rewrite (post_attendance_destructured st p req_body _ _ _ _ Hp G1 G2 G3 G4).
  split; [apply dateRegex_spec|]. split; [|split; [|split]].
  - intros Hno. unfold post_validated. rewrite T1, T2, T3, T4, Hin.
    destruct (Js.test dateRegex (Js.Str d)) eqn:Ht.
    + apply dateRegex_spec in Ht. contradiction.
    + reflexivity.
  - intros Hyes. apply dateRegex_spec in Hyes.
    apply post_validated_past_checks; auto; try discriminate.
    intros Hf. rewrite Hyes in Hf. discriminate.
  - intros H. apply dateRegex_spec in H. vm_compute in H. discriminate.
  - apply dateRegex_spec. vm_compute. reflexivity.
Qed.

(** A date written with slashes is refused although it names a real day. *)
Lemma C3_date_pattern_witness :
  post_attendance ready (attendance_body "Alice" "E1" "01/02/2024" "Present")
  = (failure 400 date_error, ready).
Proof.
  apply (C3_date_pattern ready (createPool dbConfig)
           (attendance_body "Alice" "E1" "01/02/2024" "Present")
           (Js.Str "Alice") (Js.Str "E1") (Js.Str "Present") "01/02/2024");
    try reflexivity.
  apply (C3_date_pattern ready (createPool dbConfig)
           (attendance_body "Alice" "E1" "01/02/2024" "Present")
           (Js.Str "Alice") (Js.Str "E1") (Js.Str "Present") "01/02/2024");
    reflexivity.
Defined.

(** C4: when every check passes and the insert goes through, the new row
    carries the trimmed name and identifier under the key generated by the
    store, and the answer is 201 with that key and with the four fields
    of the request as they were received. *)
Theorem C4_insert_trimmed_echo_raw st p req_body rawName rawID date status result d :
  pool st = Some p →
  Js.get req_body "employeeName" = Some (Js.Str rawName) →
  Js.get req_body "employeeID" = Some (Js.Str rawID) →
  Js.get req_body "date" = Some date →
  Js.get req_body "status" = Some status →
  Js.truthy (Js.Str rawName) = true → Js.truthy (Js.Str rawID) = true →
  Js.truthy date = true →
  Js.includes [Js.Str "Present"; Js.Str "Absent"] status = true →
  Js.test dateRegex date = true →
  Sql.insert (db st) (Js.trim rawName) (Js.trim rawID) date status
    = inr (result, d) →
  post_attendance st req_body
  = (res_status_json 201
       [ ("success", JBool true);
         ("message", JStr "Attendance recorded successfully");
         ("id", JInt (Sql.auto_increment (db st)));
         ("data", JObj [ ("employeeName", JVal (Js.Str rawName));
                         ("employeeID", JVal (Js.Str rawID));
                         ("date", JVal date);
                         ("status", JVal status) ]) ],
     with_db st d)
  ∧ Sql.table (db st) !! Sql.auto_increment (db st) = None
  ∧ ∃ dateText statusText,
      date = Js.Str dateText ∧ status = Js.Str statusText
      ∧ Sql.table d
        = <[Sql.auto_increment (db st) :=
              {| Sql.employeeName := Js.trim rawName;
                 Sql.employeeID := Js.trim rawID;
                 Sql.date := dateText;
                 Sql.status := statusText;
                 Sql.created_at := Sql.current_timestamp (db st) |}]>
            (Sql.table (db st)).
Proof.
  intros Hp G1 G2 G3 G4 T1 T2 T3 Hin Ht Hins.
  assert (T4 : Js.truthy status = true).
  { apply includes_status in Hin as [->| ->]; reflexivity. }
  rewrite (post_attendance_destructured st p req_body _ _ _ _ Hp G1 G2 G3 G4).
  unfold post_validated. rewrite T1, T2, T3, T4, Hin, Ht.
  cbn [negb orb call_trim bind ret]. rewrite Hins. cbn [bind try_catch ret].
  unfold Sql.insert in Hins.
  destruct (Sql.refuses (db st) _); [discriminate|].
  destruct date as [| | | |dateText| |]; try discriminate.
  destruct status as [| | | |statusText| |]; try discriminate.
  destruct (Sql.table (db st) !! Sql.auto_increment (db st)) eqn:Hfresh;
    [discriminate|].
  inversion Hins; subst. cbn [Sql.insertId].
  split; [reflexivity|]. split; [reflexivity|].
  exists dateText, statusText. auto.
Qed.

(** The example of the specification: the padded name and identifier are
    stored trimmed and echoed as sent. *)
Lemma C4_insert_trimmed_echo_raw_witness :
  post_attendance ready
    (attendance_body "Alice Smith " " E1 " "2024-03-01" "Present")
  = (res_status_json 201
       [ ("success", JBool true);
         ("message", JStr "Attendance recorded successfully");
         ("id", JInt 1);
         ("data", JObj [ ("employeeName", JVal (Js.Str "Alice Smith "));
                         ("employeeID", JVal (Js.Str " E1 "));
                         ("date", JVal (Js.Str "2024-03-01"));
                         ("status", JVal (Js.Str "Present")) ]) ],
     with_db ready
       (Sql.insert_row empty_db
          {| Sql.employeeName := "Alice Smith"; Sql.employeeID := "E1";
             Sql.date := "2024-03-01"; Sql.status := "Present";
             Sql.created_at := 0 |})).
Proof.
  apply (C4_insert_trimmed_echo_raw ready (createPool dbConfig)
           (attendance_body "Alice Smith " " E1 " "2024-03-01" "Present")
           "Alice Smith " " E1 " (Js.Str "2024-03-01") (Js.Str "Present")
           {| Sql.affectedRows := 1; Sql.insertId := 1 |});
    reflexivity.
Defined.

(** C5 (the code departs from the claim): a name made of spaces only is
    truthy, passes every check, and is stored as the empty string. *)
Theorem C5_blank_name_stored_empty :
  let '(resp, st') :=
    post_attendance ready (attendance_body "   " "E1" "2024-03-01" "Present") in
  status resp = 201
  ∧ Sql.table (db st') !! 1
    = Some {| Sql.employeeName := ""; Sql.employeeID := "E1";
              Sql.date := "2024-03-01"; Sql.status := "Present";
              Sql.created_at := 0 |}.
Proof. vm_compute. split; reflexivity. Qed.

(** ** The store *)

#[global] Instance before_total : Total Sql.before.
Proof.
  intros a b. unfold Sql.before.
  destruct (decide (Sql.date (snd a) = Sql.date (snd b))) as [E|N].
  - destruct (Z.le_ge_cases (Sql.created_at (snd a)) (Sql.created_at (snd b)));
      [right | left]; right; auto.
  - destruct (total String.le (Sql.date (snd a)) (Sql.date (snd b)));
      [right | left]; left; auto.
Qed.

#[global] Instance before_trans : Transitive Sql.before.
Proof.
  intros a b c. unfold Sql.before.
  intros [[N1 L1]|[E1 L1]] [[N2 L2]|[E2 L2]].
  - left. split; [|by etrans].
    intros E. rewrite E in L1. apply N2. by apply (anti_symm String.le).
  - left. rewrite <- E2. auto.
  - left. rewrite E1. auto.
  - right. split; [congruence|lia].
Qed.

Lemma select_all_perm db : Sql.select_all db ≡ₚ map_to_list (Sql.table db).
Proof. apply merge_sort_Permutation. Qed.

Lemma select_all_sorted db : StronglySorted Sql.before (Sql.select_all db).
Proof. apply StronglySorted_merge_sort; apply _. Qed.

Lemma with_db_same st : with_db st (db st) = st.
Proof. destruct st; reflexivity. Qed.

(** ** The GET handler *)

Lemma StronglySorted_lookup_lt {A} (R : relation A) (l : list A) i j a b :
  StronglySorted R l → (i < j)%nat →
  l !! i = Some a → l !! j = Some b → R a b.
Proof.
  intros Hsorted. revert i j.
  induction Hsorted as [|x l _ IH Hx]; intros i j Hij Hi Hj;
    [rewrite lookup_nil in Hi; discriminate|].
  destruct j as [|j]; [lia|]. cbn in Hj.
  destruct i as [|i]; cbn in Hi.
  - injection Hi as <-. rewrite Forall_forall in Hx. apply Hx.
    apply list_elem_of_lookup. eauto.
  - apply (IH i j); [lia | exact Hi | exact Hj].
Qed.

Lemma before_explicit (a b : Z * Sql.Row) :
  Sql.before a b →
  String.le (Sql.date (snd b)) (Sql.date (snd a))
  ∧ (Sql.date (snd a) = Sql.date (snd b) →
     Sql.created_at (snd b) ≤ Sql.created_at (snd a)).
Proof.
  intros [[Hne Hle]|[Heq Hle]].
  - split; [exact Hle | contradiction].
  - split; [rewrite Heq; reflexivity | intros _; exact Hle].
Qed.

(** C7: a listing that succeeds answers 200 with every stored record, the
    later date first and, within a date, the later insertion time first,
    and with their number; an empty table gives an empty list and zero.
    The order is spelled out on the positions of the list: of two records
    the one listed first has the date that is not earlier and, when the
    dates are equal, the [created_at] that is not earlier. *)
Theorem C7_listing_sorted st p :
  pool st = Some p →
  Sql.refuses (db st) Sql.SelectAll = None →
  ∃ rows,
    get_attendance st
    = (res_json [ ("success", JBool true); ("data", JRows rows);
                  ("count", JInt (Z.of_nat (length rows))) ], st)
    ∧ status (fst (get_attendance st)) = 200
    ∧ rows ≡ₚ map_to_list (Sql.table (db st))
    ∧ StronglySorted Sql.before rows
    ∧ length rows = size (Sql.table (db st))
    ∧ (Sql.table (db st) = ∅ → rows = [] ∧ Z.of_nat (length rows) = 0)
    ∧ (∀ i j a b,
         (i < j)%nat → rows !! i = Some a → rows !! j = Some b →
         String.le (Sql.date (snd b)) (Sql.date (snd a))
         ∧ (Sql.date (snd a) = Sql.date (snd b) →
            Sql.created_at (snd b) ≤ Sql.created_at (snd a))).
Proof.
  intros Hp Hok. exists (Sql.select_all (db st)).
  unfold get_attendance, Sql.select. rewrite Hp, Hok. cbn [bind ret try_catch].
  split; [reflexivity|]. split; [reflexivity|].
  split; [apply select_all_perm|]. split; [apply select_all_sorted|].
  assert (Hlen : length (Sql.select_all (db st)) = size (Sql.table (db st))).
  { rewrite <- length_map_to_list. apply Permutation_length, select_all_perm. }
  split; [exact Hlen|]. split.
  - intros Hempty. rewrite Hempty, map_size_empty in Hlen.
    destruct (Sql.select_all (db st)); [auto | discriminate].
  - intros i j a b Hij Hi Hj. apply before_explicit.
    exact (StronglySorted_lookup_lt _ _ i j a b (select_all_sorted (db st))
             Hij Hi Hj).
Qed.

(** Three rows: the one of 2 March first although it was entered first,
    then the two of 1 March, the later entry before the earlier. *)
Lemma C7_listing_sorted_witness :
  ∃ rows,
    get_attendance shelf
    = (res_json [ ("success", JBool true); ("data", JRows rows);
                  ("count", JInt (Z.of_nat (length rows))) ], shelf)
    ∧ rows = [ (3, shelf_row "2024-03-02" 50);
               (2, shelf_row "2024-03-01" 200);
               (1, shelf_row "2024-03-01" 100) ].
Proof.
  destruct (C7_listing_sorted shelf (createPool dbConfig) eq_refl eq_refl)
    as (rows & Heq & _ & Hperm & _ & Hlen & _ & Horder).
  exists rows. split; [exact Heq|].
  vm_compute in Hlen.
  destruct rows as [|x [|y [|z [|w rows]]]]; try discriminate Hlen.
  destruct (Horder 0%nat 1%nat x y) as [Hxy Hxy']; [lia|reflexivity..|].
  destruct (Horder 1%nat 2%nat y z) as [Hyz Hyz']; [lia|reflexivity..|].
  assert (H1 : (1, shelf_row "2024-03-01" 100) ∈ [x; y; z]).
  { rewrite Hperm. apply elem_of_map_to_list. reflexivity. }
  assert (H2 : (2, shelf_row "2024-03-01" 200) ∈ [x; y; z]).
  { rewrite Hperm. apply elem_of_map_to_list. reflexivity. }
  assert (H3 : (3, shelf_row "2024-03-02" 50) ∈ [x; y; z]).
  { rewrite Hperm. apply elem_of_map_to_list. reflexivity. }
  rewrite !elem_of_cons, elem_of_nil in H1, H2, H3.
  destruct H1 as [E1|[E1|[E1|[]]]], H2 as [E2|[E2|[E2|[]]]],
    H3 as [E3|[E3|[E3|[]]]];
    rewrite <- ?E1, <- ?E2, <- ?E3 in *; try congruence;
    try reflexivity;
    try (exfalso; vm_compute in Hxy; exact Hxy);
    try (exfalso; vm_compute in Hyz; exact Hyz);
    try (exfalso; specialize (Hxy' eq_refl); cbn in Hxy'; lia);
    try (exfalso; specialize (Hyz' eq_refl); cbn in Hyz'; lia).
Defined.

(** ** The DELETE handler *)

Lemma delete_attendance_checked st p s :
  pool st = Some p → s ≠ "" → Js.is_numeric s = true →
  delete_attendance st (Some s)
  = try_catch
      (let! (result, d) := Sql.delete (db st) (Js.parseInt (Js.Str s)) in
       if Sql.affectedRows result =? 0
       then ret (failure 404 "Record not found", with_db st d)
       else ret (res_json
                   [ ("success", JBool true);
                     ("message", JStr "Record deleted successfully") ],
                 with_db st d))
      (fun error => (failure_details "Failed to delete record" error, st)).
Proof.
  intros Hp Hs Hnum. unfold delete_attendance. rewrite Hp.
  cbn [of_option Js.truthy Js.isNaN Js.toString]. rewrite Hnum.
  destruct s; [contradiction|]. reflexivity.
Qed.



(** C10: the numeric check lets through every string that converts to a
    number, whole or not: such a request is never answered 400; for
    [12.5] the key handed to the store is 12, and the row with key 12 is
    the one deleted. *)
Theorem C10_fractional_id_truncated st p :
  pool st = Some p →
  (∀ s, s ≠ "" → Js.is_numeric s = true →
     status (fst (delete_attendance st (Some s))) ≠ 400)
  ∧ Js.isNaN (Js.Str "12.5") = false
  ∧ Js.parseInt (Js.Str "12.5") = Js.Int 12
  ∧ (∀ r, Sql.refuses (db st) (Sql.Delete (Js.Int 12)) = None →
          Sql.table (db st) !! 12 = Some r →
          delete_attendance st (Some "12.5")
          = (deleted_ok, with_db st (Sql.delete_row (db st) 12))).
Proof.
  intros Hp. split; [|split; [reflexivity|split; [reflexivity|]]].
  - intros s Hs Hnum. rewrite (delete_attendance_checked st p s Hp Hs Hnum).
    destruct (Sql.delete (db st) (Js.parseInt (Js.Str s))) as [e|[result d]];
      cbn [bind try_catch]; [discriminate|].
    destruct (Sql.affectedRows result =? 0); discriminate.
  - intros r Hok Hr.
    rewrite (delete_attendance_checked st p "12.5" Hp); [|discriminate|reflexivity].
    change (Js.parseInt (Js.Str "12.5")) with (Js.Int 12).
    unfold Sql.delete. rewrite Hok, Hr. reflexivity.
Qed.

(** On the server holding row 12, [DELETE /api/attendance/12.5] removes
    that row. *)
Lemma C10_fractional_id_truncated_witness :
  delete_attendance stocked (Some "12.5")
  = (deleted_ok, with_db stocked (Sql.delete_row (db stocked) 12))
  ∧ Sql.table (db (snd (delete_attendance stocked (Some "12.5")))) = ∅.
Proof.
  assert (H : delete_attendance stocked (Some "12.5")
              = (deleted_ok, with_db stocked (Sql.delete_row (db stocked) 12))).
  { eapply (C10_fractional_id_truncated stocked (createPool dbConfig) eq_refl);
      reflexivity. }
  split; [exact H|]. rewrite H. reflexivity.
Defined.

(** ** The CORS origin callback *)

Lemma strict_eq_Str (y : Js.Val) (s : string) :
  Js.strict_eq y (Js.Str s) = true ↔ y = Js.Str s.
Proof.
  destruct y; cbn [Js.strict_eq]; split; try discriminate.
  - intros H. apply String.eqb_eq in H. congruence.
  - intros [= ->]. apply String.eqb_refl.
Qed.

Lemma indexOf_from_range i l x :
  Js.indexOf_from i l x = -1 ∨ i ≤ Js.indexOf_from i l x.
Proof.
  revert i. induction l as [|y l IH]; intros i; cbn [Js.indexOf_from]; [auto|].
  destruct (Js.strict_eq y x); [right; lia|].
  destruct (IH (i + 1)); [auto | right; lia].
Qed.

Lemma indexOf_from_found i l x :
  0 ≤ i →
  Js.indexOf_from i l x ≠ -1 ↔ ∃ y, y ∈ l ∧ Js.strict_eq y x = true.
Proof.
  revert i. induction l as [|y l IH]; intros i Hi; cbn [Js.indexOf_from].
  - split; [congruence|]. intros (y & Hy & _). inversion Hy.
  - destruct (Js.strict_eq y x) eqn:E.
    + split; [|lia]. intros _. exists y. split; [left|exact E].
    + rewrite IH by lia. split.
      * intros (z & Hz & Ez). exists z. split; [right; exact Hz|exact Ez].
      * intros (z & Hz & Ez). exists z. split; [|exact Ez].
        inversion Hz; subst; [congruence|assumption].
Qed.

Lemma allowedOrigins_spec env s :
  s ≠ "" → Js.Str s ∈ allowedOrigins env ↔ s ∈ allow_list env.
Proof.
  intros Hs. unfold allowedOrigins, allow_list.
  rewrite list_elem_of_filter, elem_of_app.
  rewrite !elem_of_cons, !elem_of_nil.
  assert (Ht : Is_true (Js.truthy (Js.Str s))).
  { destruct s; [contradiction | exact I]. }
  destruct (FRONTEND_URL env) as [url|]; cbn [of_option];
    rewrite ?elem_of_cons, ?elem_of_nil; split.
  - intros (_ & [H|[H|[H|[H|[]]]]]); inversion H; subst; tauto.
  - intros [[->|[->|[->|[]]]]|[->|[]]]; tauto.
  - intros (_ & [H|[H|[H|[H|[]]]]]); inversion H; subst; tauto.
  - intros [[->|[->|[->|[]]]]|[]]; tauto.
Qed.

Lemma cors_allows_Some env s :
  s ≠ "" → cors_allows env (Some s) = true ↔ s ∈ allow_list env.
Proof.
  intros Hs. rewrite <- (allowedOrigins_spec env s Hs).
  unfold cors_allows, corsOptions_origin. cbn [of_option Js.truthy].
  destruct s as [|c s]; [contradiction|]. cbn [Js.is_empty negb].
  destruct (Js.indexOf (allowedOrigins env) (Js.Str (String c s)) =? -1)
    eqn:E; cbn [negb ret throw].
  - apply Z.eqb_eq in E. split; [discriminate|]. intros Hin. exfalso.
    apply (proj2 (indexOf_from_found 0 _ _ (Z.le_refl 0))) in E; [exact E|].
    exists (Js.Str (String c s)). split; [exact Hin|]. apply strict_eq_Str.
    reflexivity.
  - apply Z.eqb_neq in E. split; [|reflexivity]. intros _.
    apply (indexOf_from_found 0 _ _ (Z.le_refl 0)) in E as (y & Hy & Ey).
    apply strict_eq_Str in Ey. congruence.
Qed.

(** C9, as stated, fails: a request whose [Origin] header is present but
    empty is let through, although it carries the header and the empty
    string is not on the list. *)
Lemma C9_empty_origin_allowed :
  ¬ (cors_allows env0 (Some "") = true ↔ claimed_allowed env0 (Some "")).
Proof.
  intros [H _]. destruct (H eq_refl) as [Hnone|(s & [= <-] & Hin)];
    [discriminate|].
  unfold allow_list in Hin. cbn in Hin.
  rewrite !elem_of_cons, elem_of_nil in Hin.
  destruct Hin as [H1|[H1|[H1|[]]]]; discriminate.
Qed.

(** C9, amended: the origin callback lets a request through exactly when
    it has no [Origin] header, or an empty one, or one equal to a member
    of the allow-list (the three fixed origins and FRONTEND_URL when it is
    set); every other request is answered by the error handler, the
    routes are not run and the store is left alone. *)
Theorem C9_cors_predicate env (o : option string) :
  (cors_allows env o = true
   ↔ o = None ∨ o = Some "" ∨ ∃ s, o = Some s ∧ s ∈ allow_list env)
  ∧ (∀ st req, origin req = o →
       cors_allows env o = false →
       app env st req = (error_handler cors_error, st)).
Proof.
  split.
  - destruct o as [[|c s]|].
    + split; [auto | reflexivity].
    + rewrite cors_allows_Some by discriminate. split.
      * intros H. right. right. eauto.
      * intros [H|[H|(s' & [= <-] & H)]]; [discriminate..|exact H].
    + split; [auto | reflexivity].
  - intros st req <- Hno. unfold app. unfold cors_allows in Hno.
    unfold corsOptions_origin in *.
    destruct (negb (Js.truthy (of_option (origin req))));
      [discriminate|].
    destruct (negb (Js.indexOf (allowedOrigins env)
                      (of_option (origin req)) =? -1));
      [discriminate|].
    reflexivity.
Qed.

(** An origin that is not on the list is turned away with the 500 answer
    of the error handler before any route runs. *)
Lemma C9_cors_predicate_witness :
  app env0 stocked (request (Some "https://evil.example") (DeleteAttendance (Some "12")))
  = (error_handler cors_error, stocked).
Proof.
  apply (C9_cors_predicate env0 (Some "https://evil.example"));
    reflexivity.
Defined.

(** ** The response envelope *)

Create HintDb envelope.

Lemma has_success_failure code msg : has_success (failure code msg).
Proof. eexists _, false. split; reflexivity. Qed.

Lemma has_success_failure_details msg e : has_success (failure_details msg e).
Proof. eexists _, false. split; reflexivity. Qed.

Lemma has_success_error_handler e : has_success (error_handler e).
Proof. eexists _, false. split; reflexivity. Qed.

Lemma has_success_fields code rest :
  has_success (res_status_json code (("success", JBool true) :: rest)).
Proof. eexists _, true. split; reflexivity. Qed.

#[local] Hint Resolve has_success_failure has_success_failure_details
  has_success_error_handler has_success_fields : envelope.

(** One step through a handler: reduce the monad, then split on the next
    call or test. *)
Ltac handler_step :=
  cbn [bind ret throw try_catch fst];
  match goal with
  | |- context [bind ?m _] => destruct m as [?|?]
  | |- context [match ?x with (_, _) => _ end] => destruct x
  | |- context [if ?c then _ else _] => destruct c
  end.

Ltac handler_cases :=
  repeat handler_step; cbn [bind ret throw try_catch fst];
  unfold res_json, not_found; auto with envelope.

Lemma get_attendance_envelope st :
  pool st ≠ None → has_success (fst (get_attendance st)).
Proof.
  intros Hp. unfold get_attendance.
  destruct (pool st); [|contradiction]. handler_cases.
Qed.

Lemma post_attendance_envelope st req_body :
  pool st ≠ None → has_success (fst (post_attendance st req_body)).
Proof.
  intros Hp. unfold post_attendance.
  destruct (pool st); [|contradiction]. handler_cases.
Qed.

Lemma delete_attendance_envelope st id :
  pool st ≠ None → has_success (fst (delete_attendance st id)).
Proof.
  intros Hp. unfold delete_attendance.
  destruct (pool st); [|contradiction]. handler_cases.
Qed.

#[local] Hint Resolve get_attendance_envelope post_attendance_envelope
  delete_attendance_envelope : envelope.

(** C1, as stated, fails: the answers of [GET /health] and [GET /api] are
    JSON objects without a [success] field, and the answer given while
    [pool] is unset is [{error}] alone, with neither [success] nor
    [details]. *)
Lemma C1_health_without_success :
  ¬ has_success (fst (app env0 ready (request None GetHealth)))
  ∧ ¬ has_success (fst (app env0 ready (request None GetApi)))
  ∧ fst (app env0 idle (request None GetAttendance))
    = res_status_json 500 [ ("error", JStr "Database not connected") ].
Proof.
  split; [|split; [|reflexivity]];
    intros (fields & b & Hbody & Hfield); cbn in Hbody;
    inversion Hbody; subst; cbn in Hfield; discriminate.
Qed.

Lemma corsOptions_origin_true env o b :
  corsOptions_origin env o = inr b → b = true.
Proof.
  unfold corsOptions_origin.
  destruct (negb (Js.truthy o)); [intros [= <-]; reflexivity|].
  destruct (negb (Js.indexOf (allowedOrigins env) o =? -1));
    [intros [= <-]; reflexivity | discriminate].
Qed.

Lemma not_has_success_preflight : ¬ has_success preflight.
Proof. intros (fields & b & Hbody & _). discriminate Hbody. Qed.

(** C1, amended: the JSON document the service hands to [res.json] is an
    object with a boolean [success] field whenever the request is turned
    away by the CORS check, or is not a preflight and its body fails to
    parse, or is for anything but a preflight, [GET /health] and
    [GET /api], [pool] being set if it is for an attendance route (the
    404 handler and the error handler do not read [pool]).  A preflight
    from an allowed origin is ended by the cors middleware with status
    204 and no body, and [GET /health] and [GET /api], once past the
    CORS check and the body parsers, answer without the field. *)
Theorem C1_success_envelope env st req :
  (cors_allows env (origin req) = false →
     has_success (fst (app env st req)))
  ∧ (route req ≠ Preflight → (∃ e, parsed_body req = inl e) →
     has_success (fst (app env st req)))
  ∧ (route req ≠ Preflight → route req ≠ GetHealth → route req ≠ GetApi →
     (pool st = None → ∃ url, route req = Unmatched url) →
     has_success (fst (app env st req)))
  ∧ (cors_allows env (origin req) = true → route req = Preflight →
     app env st req = (preflight, st) ∧ ¬ has_success preflight)
  ∧ (cors_allows env (origin req) = true →
     (∃ req_body, parsed_body req = inr req_body) →
     route req = GetHealth ∨ route req = GetApi →
     ¬ has_success (fst (app env st req))).
Proof.
  unfold app, cors_allows.
  destruct (corsOptions_origin env (of_option (origin req)))
    as [e|allowed] eqn:Hcors.
  - split; [|split; [|split; [|split]]]; intros; cbn [fst];
      auto with envelope; discriminate.
  - apply corsOptions_origin_true in Hcors as ->.
    split; [discriminate|]. split; [|split; [|split]].
    + intros Hpre [e He]. rewrite He.
      destruct (route req); try contradiction; cbn [fst]; auto with envelope.
    + intros Hpre Hh Ha Hp.
      destruct (route req) as [| | | | |id|url] eqn:Hroute;
        try contradiction;
        destruct (parsed_body req); cbn [fst]; unfold not_found;
        auto with envelope.
      all: assert (pool st ≠ None)
        by (intros Hn; destruct (Hp Hn) as [url Hu]; discriminate Hu);
        auto with envelope.
    + intros _ ->. split; [reflexivity | apply not_has_success_preflight].
    + intros _ [req_body ->] [-> | ->]; cbn [fst];
        intros (fields & b & Hbody & Hfield); cbn in Hbody;
        inversion Hbody; subst; cbn in Hfield; discriminate.
Qed.

Lemma C1_success_envelope_witness :
  has_success (fst (app env0 stocked (request None (DeleteAttendance (Some "12")))))
  ∧ has_success (fst (app env0 idle (request None (Unmatched "/nowhere"))))
  ∧ has_success
      (fst (app env0 idle (request (Some "https://evil.example") GetHealth)))
  ∧ app env0 ready (request None Preflight) = (preflight, ready).
Proof.
  split; [|split; [|split]].
  - destruct (C1_success_envelope env0 stocked
                (request None (DeleteAttendance (Some "12"))))
      as (_ & _ & Hroute & _).
    apply Hroute; discriminate.
  - destruct (C1_success_envelope env0 idle
                (request None (Unmatched "/nowhere")))
      as (_ & _ & Hroute & _).
    apply Hroute; try discriminate. intros _. eexists. reflexivity.
  - destruct (C1_success_envelope env0 idle
                (request (Some "https://evil.example") GetHealth))
      as (Hcors & _).
    apply Hcors. reflexivity.
  - destruct (C1_success_envelope env0 ready (request None Preflight))
      as (_ & _ & _ & Hpre).
    apply Hpre; reflexivity.
Defined.

(** ** Start-up *)

Lemma initDatabase_connected a p :
  fst (initDatabase a p) = connected a.
Proof.
  unfold initDatabase, connected.
  destruct (createPool_ok a), (getConnection_ok a), (createTable_ok a);
    reflexivity.
Qed.

Lemma initDatabase_pool a p :
  fst (initDatabase a p) = true →
  snd (initDatabase a p) = Some (createPool dbConfig).
Proof.
  unfold initDatabase.
  destruct (createPool_ok a), (getConnection_ok a), (createTable_ok a);
    cbn; congruence.
Qed.

(** The loop, one iteration at a time. *)
Lemma startServer_loop_step m world r p :
  startServer_loop m world r p
  = if decide (r < m)%nat then
      if connected (world r)
      then (snd (initDatabase (world r) p), [Attempted true; Listening])
      else if decide (S r < m)%nat
           then (fst (startServer_loop m world (S r)
                        (snd (initDatabase (world r) p))),
                 Attempted false :: Slept 5000
                 :: snd (startServer_loop m world (S r)
                           (snd (initDatabase (world r) p))))
           else (snd (initDatabase (world r) p), [Attempted false; Exited 1])
    else (p, []).
Proof.
  rewrite <- (initDatabase_connected (world r) p).
  funelim (startServer_loop m world r p); clear Heqcall;
    repeat match goal with
           | H : decide _ = _ |- _ => rewrite H; clear H
           | H : initDatabase _ _ = _ |- _ => rewrite H; clear H
           end; cbn [fst snd]; try reflexivity.
  destruct (startServer_loop _ _ _ _); reflexivity.
Qed.

Lemma startServer_loop_runs m world r p :
  Startup (m - r) (snd (startServer_loop m world r p)).
Proof.
  remember (m - r)%nat as left_ eqn:Hleft.
  revert r p Hleft. induction left_ as [|k IH]; intros r p Hleft;
    rewrite startServer_loop_step.
  - destruct (decide (r < m)%nat); [lia|]. constructor.
  - destruct (decide (r < m)%nat); [|lia].
    destruct (connected (world r)); [constructor|].
    destruct (decide (S r < m)%nat); cbn [snd].
    + destruct k as [|k]; [lia|]. constructor. apply IH. lia.
    + assert (k = 0%nat) as -> by lia. constructor.
Qed.

Lemma Startup_attempts n evs : Startup n evs → (attempts evs ≤ n)%nat.
Proof. induction 1; cbn [attempts]; lia. Qed.

Lemma Startup_listens n evs : Startup n evs → (listens evs ≤ 1)%nat.
Proof. induction 1; cbn [listens]; lia. Qed.

(** The listener is bound only with [pool] set: what the handlers find
    when a request arrives. *)
Lemma startServer_loop_pool m world r p :
  (0 < listens (snd (startServer_loop m world r p)))%nat →
  fst (startServer_loop m world r p) = Some (createPool dbConfig).
Proof.
  remember (m - r)%nat as left_ eqn:Hleft.
  revert r p Hleft. induction left_ as [|k IH]; intros r p Hleft;
    rewrite startServer_loop_step.
  - destruct (decide (r < m)%nat); [lia|]. cbn. lia.
  - destruct (decide (r < m)%nat); [|lia].
    destruct (connected (world r)) eqn:Hc.
    + intros _. cbn [fst]. apply initDatabase_pool.
      rewrite initDatabase_connected. exact Hc.
    + destruct (decide (S r < m)%nat); cbn [fst snd listens]; [|lia].
      apply IH. lia.
Qed.

(** C8: the supervisor runs [initDatabase] at most three times; a failed
    run other than the third is followed by a sleep of 5000 ms and the
    next run; the first successful run is followed by the one call of
    [app.listen], which ends the start-up; and after a third failed run
    the process exits with code 1 and has never listened. *)
Theorem C8_startup_supervisor (world : nat -> Attempt) :
  let evs := snd (startServer world) in
  Startup 3 evs
  ∧ (attempts evs ≤ 3)%nat
  ∧ (listens evs ≤ 1)%nat
  ∧ evs
    = (if connected (world 0%nat) then [Attempted true; Listening]
       else Attempted false :: Slept 5000 ::
         if connected (world 1%nat) then [Attempted true; Listening]
         else Attempted false :: Slept 5000 ::
           if connected (world 2%nat) then [Attempted true; Listening]
           else [Attempted false; Exited 1])
  ∧ ((∃ n, (n < 3)%nat ∧ connected (world n) = true) →
       listens evs = 1%nat ∧ ¬ (∃ c, Exited c ∈ evs)
       ∧ fst (startServer world) = Some (createPool dbConfig))
  ∧ ((∀ n, (n < 3)%nat → connected (world n) = false) →
       attempts evs = 3%nat ∧ listens evs = 0%nat
       ∧ ∃ c, last evs = Some (Exited c) ∧ c ≠ 0).
Proof.
  intros evs.
  assert (Hrun : Startup 3 evs) by apply (startServer_loop_runs 3 world 0 None).
  assert (Hevs : evs
    = (if connected (world 0%nat) then [Attempted true; Listening]
       else Attempted false :: Slept 5000 ::
         if connected (world 1%nat) then [Attempted true; Listening]
         else Attempted false :: Slept 5000 ::
           if connected (world 2%nat) then [Attempted true; Listening]
           else [Attempted false; Exited 1])).
  { subst evs. unfold startServer, maxRetries.
    rewrite startServer_loop_step. cbn [decide_rel decide]. 
    destruct (connected (world 0%nat)); [reflexivity|].
    rewrite startServer_loop_step.
    destruct (connected (world 1%nat)); [reflexivity|].
    rewrite startServer_loop_step.
    destruct (connected (world 2%nat)); reflexivity. }
  split; [exact Hrun|]. split; [apply (Startup_attempts 3 evs Hrun)|].
  split; [apply (Startup_listens 3 evs Hrun)|]. split; [exact Hevs|].
  split.
  - intros (n & Hn & Hc).
    assert (Hl : listens evs = 1%nat).
    { rewrite Hevs.
      destruct n as [|[|[|n]]]; [| | |lia];
        destruct (connected (world 0%nat)); try reflexivity; try congruence;
        destruct (connected (world 1%nat)); try reflexivity; try congruence;
        destruct (connected (world 2%nat)); try reflexivity; congruence. }
    split; [exact Hl|]. split.
    + intros (c & Hin). rewrite Hevs in Hin.
      destruct n as [|[|[|n]]]; [| | |lia];
        destruct (connected (world 0%nat)); try congruence;
        try destruct (connected (world 1%nat)); try congruence;
        try destruct (connected (world 2%nat)); try congruence;
        repeat (apply elem_of_cons in Hin as [Hin|Hin]; [discriminate|]);
        inversion Hin.
    + apply startServer_loop_pool. fold (startServer world). fold evs. lia.
  - intros Hnone. rewrite Hevs.
    rewrite (Hnone 0%nat), (Hnone 1%nat), (Hnone 2%nat) by lia.
    cbn. split; [reflexivity|]. split; [reflexivity|].
    exists 1. split; [reflexivity | lia].
Qed.

(** When the database never answers: three runs, two sleeps, exit 1. *)
Lemma C8_startup_supervisor_witness :
  snd (startServer never_up)
  = [Attempted false; Slept 5000; Attempted false; Slept 5000;
     Attempted false; Exited 1]
  ∧ listens (snd (startServer up_on_second)) = 1%nat.
Proof.
  pose proof (C8_startup_supervisor never_up) as (_ & _ & _ & Hevs & _ & _).
  pose proof (C8_startup_supervisor up_on_second) as (_ & _ & _ & _ & Hup & _).
  split; [exact Hevs|].
  apply Hup. exists 1%nat. split; [lia | reflexivity].
Defined.


(** * Further properties of the handlers *)

(** ** Trimming *)

Lemma append_cons c (a b : string) : String c a ++ b = String c (a ++ b).
Proof. reflexivity. Qed.

Lemma trimStart_leading s : leading_space (Js.trimStart s) = false.
Proof.
  induction s as [|c s IH]; cbn [Js.trimStart]; [reflexivity|].
  destruct (Js.is_space c) eqn:E; [exact IH|]. exact E.
Qed.

Lemma trimEnd_trailing s : trailing_space (Js.trimEnd s) = false.
Proof.
  induction s as [|c s IH]; cbn [Js.trimEnd]; [reflexivity|].
  destruct (Js.is_space c) eqn:E; destruct (Js.trimEnd s) as [|c' r] eqn:Er;
    cbn [Js.is_empty andb trailing_space]; auto.
Qed.

Lemma trimEnd_leading s :
  leading_space s = false → leading_space (Js.trimEnd s) = false.
Proof.
  destruct s as [|c s]; cbn [Js.trimEnd leading_space]; [reflexivity|].
  intros E. rewrite E. cbn [andb leading_space]. exact E.
Qed.

Lemma trim_clean s : clean (Js.trim s).
Proof.
  split; [apply trimEnd_leading, trimStart_leading | apply trimEnd_trailing].
Qed.

Lemma trimStart_split s :
  ∃ a, s = a ++ Js.trimStart s ∧ Js.all_chars Js.is_space a = true.
Proof.
  induction s as [|c s (a & Ha & Hsp)]; cbn [Js.trimStart].
  - exists EmptyString. auto.
  - destruct (Js.is_space c) eqn:E.
    + exists (String c a). rewrite append_cons, <- Ha.
      cbn [Js.all_chars]. rewrite E, Hsp. auto.
    + exists EmptyString. auto.
Qed.

Lemma trimEnd_split s :
  ∃ b, s = Js.trimEnd s ++ b ∧ Js.all_chars Js.is_space b = true.
Proof.
  induction s as [|c s (b & Hb & Hsp)]; cbn [Js.trimEnd].
  - exists EmptyString. auto.
  - destruct (Js.is_space c) eqn:E; destruct (Js.trimEnd s) as [|c' r] eqn:Er;
      cbn [Js.is_empty andb].
    + exists (String c b). split; [rewrite Hb; reflexivity|].
      cbn [Js.all_chars]. rewrite E, Hsp. reflexivity.
    + exists b. rewrite append_cons, <- Hb. auto.
    + exists b. rewrite append_cons, <- Hb. auto.
    + exists b. rewrite append_cons, <- Hb. auto.
Qed.

Lemma trim_split s :
  ∃ a b, s = a ++ Js.trim s ++ b
         ∧ Js.all_chars Js.is_space a = true
         ∧ Js.all_chars Js.is_space b = true.
Proof.
  destruct (trimStart_split s) as (a & Ha & Hsa).
  destruct (trimEnd_split (Js.trimStart s)) as (b & Hb & Hsb).
  exists a, b. unfold Js.trim. rewrite <- Hb, <- Ha. auto.
Qed.

(** ** The statements, read backwards *)

Lemma insert_inv d n i dv sv h d' :
  Sql.insert d n i dv sv = inr (h, d') →
  ∃ dt s, dv = Js.Str dt ∧ sv = Js.Str s
    ∧ Sql.refuses d (Sql.Insert n i dv sv) = None
    ∧ Sql.table d !! Sql.auto_increment d = None
    ∧ h = {| Sql.affectedRows := 1; Sql.insertId := Sql.auto_increment d |}
    ∧ d' = Sql.insert_row d
             {| Sql.employeeName := n; Sql.employeeID := i; Sql.date := dt;
                Sql.status := s;
                Sql.created_at := Sql.current_timestamp d |}.
Proof.
  unfold Sql.insert. intros H.
  destruct (Sql.refuses d _) eqn:Hr; [discriminate|].
  destruct dv as [| | | |dt| |]; try discriminate.
  destruct sv as [| | | |s| |]; try discriminate.
  destruct (Sql.table d !! Sql.auto_increment d) eqn:Hk; [discriminate|].
  inversion H; subst. exists dt, s. auto 10.
Qed.

Lemma delete_inv d id h d' :
  Sql.delete d id = inr (h, d') →
  Sql.refuses d (Sql.Delete id) = None
  ∧ ((Sql.affectedRows h = 0 ∧ d' = d
      ∧ ∀ k, id = Js.Int k → Sql.table d !! k = None)
     ∨ (∃ k r, id = Js.Int k ∧ Sql.table d !! k = Some r
          ∧ Sql.affectedRows h = 1 ∧ d' = Sql.delete_row d k)).
Proof.
  unfold Sql.delete. intros H.
  destruct (Sql.refuses d _) eqn:Hr; [discriminate|]. split; [reflexivity|].
  destruct id as [|k].
  - inversion H; subst. left. repeat split; auto. discriminate.
  - destruct (Sql.table d !! k) as [r|] eqn:Hk; inversion H; subst.
    + right. exists k, r. auto.
    + left. repeat split; auto. intros k' [= <-]. exact Hk.
Qed.

Lemma truthy_Str s : Js.truthy (Js.Str s) = true ↔ s ≠ "".
Proof.
  destruct s; cbn; split; try congruence; try discriminate; auto.
Qed.

(** ** The POST handler, case by case *)

Lemma post_attendance_inv st req_body resp st' :
  post_attendance st req_body = (resp, st') →
  (st' = st ∧ (status resp = 400 ∨ status resp = 500))
  ∨ ∃ p n i dt s,
      pool st = Some p
      ∧ Js.get req_body "employeeName" = Some (Js.Str n)
      ∧ Js.get req_body "employeeID" = Some (Js.Str i)
      ∧ Js.get req_body "date" = Some (Js.Str dt)
      ∧ Js.get req_body "status" = Some (Js.Str s)
      ∧ n ≠ "" ∧ i ≠ "" ∧ matches_4_2_2 dt
      ∧ (s = "Present" ∨ s = "Absent")
      ∧ Sql.refuses (db st)
          (Sql.Insert (Js.trim n) (Js.trim i) (Js.Str dt) (Js.Str s)) = None
      ∧ Sql.table (db st) !! Sql.auto_increment (db st) = None
      ∧ resp = created (Sql.auto_increment (db st))
                 (Js.Str n) (Js.Str i) (Js.Str dt) (Js.Str s)
      ∧ st' = with_db st (Sql.insert_row (db st) (new_row (db st) n i dt s)).
Proof.
  unfold post_attendance, destructure. intros H.
  destruct (pool st) as [p|] eqn:Hp;
    [|inversion H; subst; left; cbn; auto].
  destruct (Js.get req_body "employeeName") as [vn|] eqn:G1;
    [|cbn in H; inversion H; subst; left; cbn; auto].
  destruct (Js.get req_body "employeeID") as [vi|] eqn:G2;
    [|cbn in H; inversion H; subst; left; cbn; auto].
  destruct (Js.get req_body "date") as [vd|] eqn:G3;
    [|cbn in H; inversion H; subst; left; cbn; auto].
  destruct (Js.get req_body "status") as [vs|] eqn:G4;
    [|cbn in H; inversion H; subst; left; cbn; auto].
  cbn [bind ret] in H.
  destruct (Js.truthy vn) eqn:T1; [|inversion H; subst; left; cbn; auto].
  destruct (Js.truthy vi) eqn:T2; [|inversion H; subst; left; cbn; auto].
  destruct (Js.truthy vd) eqn:T3; [|inversion H; subst; left; cbn; auto].
  destruct (Js.truthy vs) eqn:T4; [|inversion H; subst; left; cbn; auto].
  cbn [negb orb] in H.
  destruct (Js.includes _ vs) eqn:Hin; [|inversion H; subst; left; cbn; auto].
  cbn [negb] in H.
  destruct (Js.test dateRegex vd) eqn:Ht; [|inversion H; subst; left; cbn; auto].
  cbn [negb] in H.
  destruct (call_trim "employeeName" vn) as [e|n'] eqn:C1.
  { cbn in H. left. case_bool_decide; inversion H; subst; cbn; auto. }
  destruct (call_trim "employeeID" vi) as [e|i'] eqn:C2.
  { cbn in H. left. case_bool_decide; inversion H; subst; cbn; auto. }
  cbn [bind] in H.
  destruct (Sql.insert (db st) n' i' vd vs) as [e|[h d']] eqn:Hins.
  { cbn in H. left. case_bool_decide; inversion H; subst; cbn; auto. }
  cbn [bind ret try_catch] in H. inversion H; subst. right.
  destruct vn as [| | | |n| |]; try discriminate.
  destruct vi as [| | | |i| |]; try discriminate.
  cbn [call_trim ret] in C1, C2. inversion C1; inversion C2; subst.
  apply insert_inv in Hins as (dt & s & -> & -> & Hr & Hk & -> & ->).
  exists p, n, i, dt, s.
  apply truthy_Str in T1, T2. apply dateRegex_spec in Ht.
  apply includes_status in Hin.
  assert (Hs : s = "Present" ∨ s = "Absent").
  { destruct Hin as [[= ->]|[= ->]]; auto. }
  repeat split; auto.
Qed.


(** A field that is absent, [null], [false], [0] or the empty string
    fails the presence check: the answer is 400 with the list of the
    required fields, before any other check, and the store is left
    alone. *)
Theorem post_missing_field st p req_body employeeName employeeID date status :
  pool st = Some p →
  Js.get req_body "employeeName" = Some employeeName →
  Js.get req_body "employeeID" = Some employeeID →
  Js.get req_body "date" = Some date →
  Js.get req_body "status" = Some status →
  Js.truthy employeeName = false ∨ Js.truthy employeeID = false
  ∨ Js.truthy date = false ∨ Js.truthy status = false →
  post_attendance st req_body = (failure 400 required_fields_error, st).
Proof.
  intros Hp G1 G2 G3 G4 Hmiss.
  rewrite (post_attendance_destructured st p req_body _ _ _ _ Hp G1 G2 G3 G4).
  unfold post_validated.
  destruct Hmiss as [->|[->|[->| ->]]]; cbn [negb orb];
    rewrite ?orb_true_r; reflexivity.
Qed.

(** A body without the [date] key is refused as incomplete. *)
Lemma post_missing_field_witness :
  post_attendance ready
    (Js.Obj [ ("employeeName", Js.Str "Alice"); ("employeeID", Js.Str "E1");
              ("status", Js.Str "Present") ])
  = (failure 400 required_fields_error, ready).
Proof.
  apply (post_missing_field ready (createPool dbConfig) _
           (Js.Str "Alice") (Js.Str "E1") Js.Undefined (Js.Str "Present"));
    try reflexivity.
  right. right. left. reflexivity.
Defined.

Lemma post_attendance_created_inv st req_body resp st' :
  post_attendance st req_body = (resp, st') → status resp = 201 →
  ∃ p n i date status result d,
    pool st = Some p
    ∧ Js.get req_body "employeeName" = Some (Js.Str n)
    ∧ Js.get req_body "employeeID" = Some (Js.Str i)
    ∧ Js.get req_body "date" = Some date
    ∧ Js.get req_body "status" = Some status
    ∧ n ≠ "" ∧ i ≠ "" ∧ Js.truthy date = true
    ∧ Js.test dateRegex date = true
    ∧ (status = Js.Str "Present" ∨ status = Js.Str "Absent")
    ∧ Sql.insert (db st) (Js.trim n) (Js.trim i) date status
      = inr (result, d)
    ∧ resp = created (Sql.insertId result) (Js.Str n) (Js.Str i) date status
    ∧ st' = with_db st d.
Proof.
  unfold post_attendance, destructure. intros H H201.
  destruct (pool st) as [p|] eqn:Hp;
    [|inversion H; subst; discriminate H201].
  destruct (Js.get req_body "employeeName") as [vn|] eqn:G1;
    [|cbn in H; inversion H; subst; discriminate H201].
  destruct (Js.get req_body "employeeID") as [vi|] eqn:G2;
    [|cbn in H; inversion H; subst; discriminate H201].
  destruct (Js.get req_body "date") as [vd|] eqn:G3;
    [|cbn in H; inversion H; subst; discriminate H201].
  destruct (Js.get req_body "status") as [vs|] eqn:G4;
    [|cbn in H; inversion H; subst; discriminate H201].
  cbn [bind ret] in H.
  destruct (Js.truthy vn) eqn:T1; [|inversion H; subst; discriminate H201].
  destruct (Js.truthy vi) eqn:T2; [|inversion H; subst; discriminate H201].
  destruct (Js.truthy vd) eqn:T3; [|inversion H; subst; discriminate H201].
  destruct (Js.truthy vs) eqn:T4; [|inversion H; subst; discriminate H201].
  cbn [negb orb] in H.
  destruct (Js.includes _ vs) eqn:Hin; [|inversion H; subst; discriminate H201].
  cbn [negb] in H.
  destruct (Js.test dateRegex vd) eqn:Ht;
    [|inversion H; subst; discriminate H201].
  cbn [negb] in H.
  destruct (call_trim "employeeName" vn) as [e|n'] eqn:C1.
  { cbn in H. case_bool_decide; inversion H; subst; discriminate H201. }
  destruct (call_trim "employeeID" vi) as [e|i'] eqn:C2.
  { cbn in H. case_bool_decide; inversion H; subst; discriminate H201. }
  cbn [bind] in H.
  destruct (Sql.insert (db st) n' i' vd vs) as [e|[h d']] eqn:Hins.
  { cbn in H. case_bool_decide; inversion H; subst; discriminate H201. }
  cbn [bind ret try_catch] in H. inversion H; subst.
  destruct vn as [| | | |n| |]; try discriminate.
  destruct vi as [| | | |i| |]; try discriminate.
  cbn [call_trim ret] in C1, C2. inversion C1; inversion C2; subst.
  exists p, n, i, vd, vs, h, d'.
  apply truthy_Str in T1, T2. apply includes_status in Hin.
  repeat split; auto.
Qed.

(** The POST handler answers 201 in exactly one situation: [pool] is set,
    name and identifier are strings that are not empty, the date is
    truthy and its string conversion has the 4-2-2 shape, the status is
    the string [Present] or [Absent], and the INSERT goes through.  The
    answer then carries the [insertId] of the store and the four fields
    as received, and the state is the one the store returned.  What makes
    the store accept or refuse is not part of the statement. *)
Theorem post_created_iff st req_body resp st' :
  post_attendance st req_body = (resp, st') ∧ status resp = 201
  ↔ ∃ p n i date status result d,
      pool st = Some p
      ∧ Js.get req_body "employeeName" = Some (Js.Str n)
      ∧ Js.get req_body "employeeID" = Some (Js.Str i)
      ∧ Js.get req_body "date" = Some date
      ∧ Js.get req_body "status" = Some status
      ∧ n ≠ "" ∧ i ≠ "" ∧ Js.truthy date = true
      ∧ Js.test dateRegex date = true
      ∧ (status = Js.Str "Present" ∨ status = Js.Str "Absent")
      ∧ Sql.insert (db st) (Js.trim n) (Js.trim i) date status
        = inr (result, d)
      ∧ resp = created (Sql.insertId result) (Js.Str n) (Js.Str i)
                 date status
      ∧ st' = with_db st d.
Proof.
  split.
  - intros [H H201]. exact (post_attendance_created_inv _ _ _ _ H H201).
  - intros (p & n & i & date & status & result & d & Hp & G1 & G2 & G3 & G4
            & Hn & Hi & T3 & Ht & Hs & Hins & -> & ->).
    split; [|reflexivity].
    rewrite (post_attendance_destructured st p req_body _ _ _ _ Hp G1 G2 G3 G4).
    unfold post_validated.
    rewrite (proj2 (truthy_Str n) Hn), (proj2 (truthy_Str i) Hi), T3, Ht.
    rewrite (proj2 (includes_status status) Hs).
    assert (T4 : Js.truthy status = true)
      by (destruct Hs as [->| ->]; reflexivity).
    rewrite T4. cbn [negb orb call_trim bind ret]. rewrite Hins. reflexivity.
Qed.

Lemma post_created_iff_witness :
  status (fst (post_attendance ready
                 (attendance_body "Bob" "E2" "2024-03-02" "Absent"))) = 201.
Proof.
  pose proof (post_created_iff ready
                (attendance_body "Bob" "E2" "2024-03-02" "Absent")
                (created 1 (Js.Str "Bob") (Js.Str "E2") (Js.Str "2024-03-02")
                   (Js.Str "Absent"))
                (with_db ready
                   (Sql.insert_row empty_db
                      (new_row empty_db "Bob" "E2" "2024-03-02" "Absent"))))
    as [_ Hback].
  destruct Hback as [Heq _].
  - exists (createPool dbConfig), "Bob", "E2", (Js.Str "2024-03-02"),
      (Js.Str "Absent"), {| Sql.affectedRows := 1; Sql.insertId := 1 |},
      (Sql.insert_row empty_db
         (new_row empty_db "Bob" "E2" "2024-03-02" "Absent")).
    repeat split; try reflexivity; try discriminate. auto.
  - rewrite Heq. reflexivity.
Defined.

(** A name or an identifier that is not a string (a number, an array, an
    object) passes the presence check when it is truthy, and then makes
    [.trim()] throw: the answer is the 500 of the [catch] block and
    nothing is written. *)
Theorem post_non_string_name st p req_body employeeName employeeID date status :
  pool st = Some p →
  Js.get req_body "employeeName" = Some employeeName →
  Js.get req_body "employeeID" = Some employeeID →
  Js.get req_body "date" = Some date →
  Js.get req_body "status" = Some status →
  Js.truthy employeeName = true → Js.truthy employeeID = true →
  Js.truthy date = true →
  Js.includes [Js.Str "Present"; Js.Str "Absent"] status = true →
  Js.test dateRegex date = true →
  (∀ s, employeeName ≠ Js.Str s) ∨ (∀ s, employeeID ≠ Js.Str s) →
  ∃ e, code e = None
       ∧ post_attendance st req_body
         = (failure_details "Failed to record attendance" e, st).
Proof.
  intros Hp G1 G2 G3 G4 T1 T2 T3 Hin Ht Hbad.
  assert (T4 : Js.truthy status = true).
  { apply includes_status in Hin as [->| ->]; reflexivity. }
  rewrite (post_attendance_destructured st p req_body _ _ _ _ Hp G1 G2 G3 G4).
  unfold post_validated. rewrite T1, T2, T3, T4, Hin, Ht. cbn [negb orb].
  destruct employeeName as [| | | |n| |];
    try (eexists; split; [|reflexivity]; reflexivity).
  destruct Hbad as [Hbad|Hbad]; [destruct (Hbad n eq_refl)|].
  destruct employeeID as [| | | |i| |];
    try (eexists; split; [|reflexivity]; reflexivity).
  destruct (Hbad i eq_refl).
Qed.

(** A numeric name is answered 500, not 400. *)
Lemma post_non_string_name_witness :
  status (fst (post_attendance ready
                 (Js.Obj [ ("employeeName", Js.Num "42");
                           ("employeeID", Js.Str "E1");
                           ("date", Js.Str "2024-03-01");
                           ("status", Js.Str "Present") ]))) = 500.
Proof.
  destruct (post_non_string_name ready (createPool dbConfig)
              (Js.Obj [ ("employeeName", Js.Num "42");
                        ("employeeID", Js.Str "E1");
                        ("date", Js.Str "2024-03-01");
                        ("status", Js.Str "Present") ])
              (Js.Num "42") (Js.Str "E1") (Js.Str "2024-03-01")
              (Js.Str "Present") eq_refl eq_refl eq_refl eq_refl eq_refl
              eq_refl eq_refl eq_refl eq_refl eq_refl)
    as (e & _ & Heq).
  - left. discriminate.
  - rewrite Heq. reflexivity.
Defined.

(** How an error of the store comes out of each handler: the listing and
    the deletion answer 500 with the message of the error; the insertion
    answers 400 [Duplicate entry found] for the code [ER_DUP_ENTRY] and
    500 with the message otherwise.  The state is kept in every case. *)
Theorem store_error_answers st p e :
  pool st = Some p →
  (Sql.refuses (db st) Sql.SelectAll = Some e →
     get_attendance st
     = (failure_details "Failed to fetch attendance records" e, st))
  ∧ (∀ req_body n i date status,
       Js.get req_body "employeeName" = Some (Js.Str n) →
       Js.get req_body "employeeID" = Some (Js.Str i) →
       Js.get req_body "date" = Some date →
       Js.get req_body "status" = Some status →
       n ≠ "" → i ≠ "" → Js.truthy date = true →
       Js.includes [Js.Str "Present"; Js.Str "Absent"] status = true →
       Js.test dateRegex date = true →
       Sql.insert (db st) (Js.trim n) (Js.trim i) date status = inl e →
       post_attendance st req_body
       = (if bool_decide (code e = Some "ER_DUP_ENTRY")
          then failure 400 "Duplicate entry found"
          else failure_details "Failed to record attendance" e, st))
  ∧ (∀ s, s ≠ "" → Js.is_numeric s = true →
       Sql.refuses (db st) (Sql.Delete (Js.parseInt (Js.Str s))) = Some e →
       delete_attendance st (Some s)
       = (failure_details "Failed to delete record" e, st)).
Proof.
  intros Hp. split; [|split].
  - intros Hr. unfold get_attendance, Sql.select. rewrite Hp, Hr. reflexivity.
  - intros req_body n i date status G1 G2 G3 G4 Hn Hi T3 Hin Ht Hins.
    assert (T4 : Js.truthy status = true).
    { apply includes_status in Hin as [->| ->]; reflexivity. }
    rewrite (post_attendance_destructured st p req_body _ _ _ _ Hp G1 G2 G3 G4).
    unfold post_validated.
    rewrite (proj2 (truthy_Str n) Hn), (proj2 (truthy_Str i) Hi), T3, T4,
      Hin, Ht.
    cbn [negb orb call_trim bind ret]. rewrite Hins. cbn [bind try_catch].
    case_bool_decide; reflexivity.
  - intros s Hs Hnum Hr.
    rewrite (delete_attendance_checked st p s Hp Hs Hnum).
    unfold Sql.delete. rewrite Hr. reflexivity.
Qed.

Lemma store_error_answers_witness :
  get_attendance down
  = (failure_details "Failed to fetch attendance records" lost, down)
  ∧ delete_attendance down (Some "12")
    = (failure_details "Failed to delete record" lost, down).
Proof.
  destruct (store_error_answers down (createPool dbConfig) lost eq_refl)
    as (Hget & _ & Hdel).
  split; [apply Hget; reflexivity|].
  apply Hdel; [discriminate | reflexivity | reflexivity].
Defined.

(** What an accepted request stores: under the announced key, a row whose
    name and identifier are the received strings without their outer
    white space, and nothing but white space was removed. *)
Theorem post_stores_trimmed st req_body resp st' :
  post_attendance st req_body = (resp, st') → status resp = 201 →
  ∃ id row n i,
    created_id resp = Some id
    ∧ Sql.table (db st') !! id = Some row
    ∧ Js.get req_body "employeeName" = Some (Js.Str n)
    ∧ Js.get req_body "employeeID" = Some (Js.Str i)
    ∧ clean (Sql.employeeName row) ∧ clean (Sql.employeeID row)
    ∧ (∃ a b, n = a ++ Sql.employeeName row ++ b
              ∧ Js.all_chars Js.is_space a = true
              ∧ Js.all_chars Js.is_space b = true)
    ∧ (∃ a b, i = a ++ Sql.employeeID row ++ b
              ∧ Js.all_chars Js.is_space a = true
              ∧ Js.all_chars Js.is_space b = true).
Proof.
  intros H H201. apply post_attendance_inv in H as [[_ [E|E]]|H];
    [rewrite E in H201; discriminate..|].
  destruct H as (p & n & i & dt & s & Hp & G1 & G2 & G3 & G4 & Hn & Hi & Hd
                 & Hs & Hr & Hk & -> & ->).
  exists (Sql.auto_increment (db st)), (new_row (db st) n i dt s), n, i.
  split; [reflexivity|]. split; [apply lookup_insert_eq|].
  split; [exact G1|]. split; [exact G2|].
  split; [apply trim_clean|]. split; [apply trim_clean|].
  split; apply trim_split.
Qed.

Lemma post_stores_trimmed_witness :
  ∃ row,
    Sql.table (db (snd (post_attendance ready
       (attendance_body "  Alice Smith " " E1 " "2024-03-01" "Present")))) !! 1
    = Some row
    ∧ clean (Sql.employeeName row).
Proof.
  destruct (post_stores_trimmed ready
              (attendance_body "  Alice Smith " " E1 " "2024-03-01" "Present")
              _ _ eq_refl eq_refl)
    as (id & row & n & i & Hid & Hrow & _ & _ & Hclean & _).
  injection Hid as <-. exists row. split; [exact Hrow | exact Hclean].
Defined.

(** ** The DELETE and GET handlers, case by case *)

Lemma delete_attendance_inv st id resp st' :
  delete_attendance st id = (resp, st') →
  (st' = st ∧ (status resp = 400 ∨ status resp = 404 ∨ status resp = 500))
  ∨ ∃ p s k r,
      pool st = Some p ∧ id = Some s ∧ s ≠ "" ∧ Js.is_numeric s = true
      ∧ Js.parseInt (Js.Str s) = Js.Int k
      ∧ Sql.refuses (db st) (Sql.Delete (Js.Int k)) = None
      ∧ Sql.table (db st) !! k = Some r
      ∧ resp = deleted_ok
      ∧ st' = with_db st (Sql.delete_row (db st) k).
Proof.
  intros H. unfold delete_attendance in H.
  destruct (pool st) as [p|] eqn:Hp;
    [|inversion H; subst; left; cbn; auto].
  destruct id as [s|]; [|inversion H; subst; left; cbn; auto].
  cbn [of_option Js.truthy Js.isNaN Js.toString] in H.
  destruct (Js.is_empty s) eqn:He;
    [inversion H; subst; left; cbn; auto|].
  destruct (Js.is_numeric s) eqn:Hnum;
    [|inversion H; subst; left; cbn; auto].
  cbn [negb orb] in H.
  destruct (Sql.delete (db st) (Js.parseInt (Js.Str s))) as [e|[h d]] eqn:Hd;
    [inversion H; subst; left; cbn; auto|].
  cbn [bind] in H.
  apply delete_inv in Hd as [Hr [(Ha & -> & _)|(k & r & Hk & Hl & Ha & ->)]];
    rewrite Ha in H; cbn in H; inversion H; subst.
  - left. rewrite with_db_same. cbn. auto.
  - right. exists p, s, k, r. rewrite Hk in Hr.
    repeat split; auto. intros ->. discriminate.
Qed.

Lemma get_attendance_inv st resp st' :
  get_attendance st = (resp, st') →
  st' = st ∧ (status resp = 200 ∨ status resp = 500).
Proof.
  unfold get_attendance, Sql.select. intros H.
  destruct (pool st); [|inversion H; subst; cbn; auto].
  destruct (Sql.refuses (db st) Sql.SelectAll); inversion H; subst; cbn; auto.
Qed.

(** ** One request *)

(** What a request can do to the state: nothing, or the insertion of one
    valid row under the counter, or the removal of one row. *)
Lemma app_inv env st req resp st' :
  app env st req = (resp, st') →
  (st' = st ∧ status resp ≠ 201
   ∧ (status resp = 200 →
      route req = GetHealth ∨ route req = GetApi ∨ route req = GetAttendance))
  ∨ (route req = PostAttendance ∧ status resp = 201
     ∧ created_id resp = Some (Sql.auto_increment (db st))
     ∧ Sql.table (db st) !! Sql.auto_increment (db st) = None
     ∧ ∃ row, valid_row row
        ∧ st' = with_db st (Sql.insert_row (db st) row))
  ∨ (∃ id k r, route req = DeleteAttendance id ∧ status resp = 200
       ∧ Sql.table (db st) !! k = Some r
       ∧ st' = with_db st (Sql.delete_row (db st) k)).
Proof.
  unfold app. intros H.
  destruct (corsOptions_origin env (of_option (origin req)));
    [inversion H; subst; left; cbn; repeat split; auto; discriminate|].
  destruct (route req) as [| | | | |id|url] eqn:Hroute;
    [inversion H; subst; left; cbn; repeat split; auto; discriminate|..];
    (destruct (parsed_body req) as [e|req_body];
     [inversion H; subst; left; cbn; repeat split; auto; discriminate|]).
  - inversion H; subst; left; cbn; repeat split; auto; discriminate.
  - inversion H; subst; left; cbn; repeat split; auto; discriminate.
  - apply get_attendance_inv in H as [-> [E|E]]; left; rewrite E;
      repeat split; auto; discriminate.
  - apply post_attendance_inv in H as [[-> [E|E]]|H].
    + left. rewrite E. repeat split; discriminate.
    + left. rewrite E. repeat split; discriminate.
    + destruct H as (p & n & i & dt & s & Hp & G1 & G2 & G3 & G4 & Hn & Hi
                     & Hd & Hs & Hr & Hk & -> & ->).
      right. left. repeat split; auto.
      exists (new_row (db st) n i dt s). split; [|reflexivity].
      repeat split; auto; try apply trim_clean;
        apply (trim_clean n) || apply (trim_clean i).
  - apply delete_attendance_inv in H as [[-> [E|[E|E]]]|H].
    + left. rewrite E. repeat split; discriminate.
    + left. rewrite E. repeat split; discriminate.
    + left. rewrite E. repeat split; discriminate.
    + destruct H as (p & s & k & r & Hp & -> & Hs & Hnum & Hk & Hr & Hl
                     & -> & ->).
      right. right. exists (Some s), k, r. auto.
  - inversion H; subst; left; cbn; repeat split; auto; discriminate.
Qed.

(** Only a POST answered 201 and a DELETE answered 200 change the state:
    every answer with a status of 400 or more, every GET and every
    unmatched route leaves it as it was. *)
Theorem state_changes_only_on_success env st req :
  (snd (app env st req) ≠ st →
     (route req = PostAttendance ∧ status (fst (app env st req)) = 201)
     ∨ (∃ id, route req = DeleteAttendance id
          ∧ status (fst (app env st req)) = 200))
  ∧ (400 ≤ status (fst (app env st req)) → snd (app env st req) = st)
  ∧ (route req = GetHealth ∨ route req = GetApi ∨ route req = GetAttendance
     ∨ (∃ url, route req = Unmatched url) →
     snd (app env st req) = st).
Proof.
  destruct (app env st req) as [resp st'] eqn:H. cbn [fst snd].
  apply app_inv in H
    as [(-> & _ & _)|[(Hroute & H201 & _)|(id & k & r & Hroute & H200 & _)]].
  - split; [congruence|]. auto.
  - split; [auto|]. split; [rewrite H201; lia|].
    rewrite Hroute. intros [?|[?|[?|[? ?]]]]; discriminate.
  - split; [eauto|]. split; [rewrite H200; lia|].
    rewrite Hroute. intros [?|[?|[?|[? ?]]]]; discriminate.
Qed.

(** A refused request against a stocked table leaves the row in place. *)
Lemma state_changes_only_on_success_witness :
  snd (app env0 stocked (request None (DeleteAttendance (Some "twelve"))))
  = stocked.
Proof.
  destruct (state_changes_only_on_success env0 stocked
              (request None (DeleteAttendance (Some "twelve"))))
    as (_ & Hfail & _).
  apply Hfail. vm_compute. intros Hgt. discriminate Hgt.
Defined.

(** ** Status and flag *)

Create HintDb answers.

Ltac answer_tac :=
  split;
  [ unfold known_status; cbn; auto 10
  | intros fields b Hb Hf; cbn in Hb; inversion Hb; subst; cbn in Hf;
    first [ discriminate Hf
          | inversion Hf; subst; cbn; split; intros; first [lia | congruence] ] ].

Lemma answer_failure_400 msg : answer_ok (failure 400 msg).
Proof. answer_tac. Qed.

Lemma answer_failure_404 msg : answer_ok (failure 404 msg).
Proof. answer_tac. Qed.

Lemma answer_failure_details msg e : answer_ok (failure_details msg e).
Proof. answer_tac. Qed.

Lemma answer_error_handler e : answer_ok (error_handler e).
Proof. answer_tac. Qed.

Lemma answer_not_connected : answer_ok not_connected.
Proof. answer_tac. Qed.

Lemma answer_get_health env : answer_ok (get_health env).
Proof. answer_tac. Qed.

Lemma answer_get_api : answer_ok get_api.
Proof. answer_tac. Qed.

Lemma answer_created rest :
  answer_ok (res_status_json 201 (("success", JBool true) :: rest)).
Proof. answer_tac. Qed.

Lemma answer_ok_200 rest :
  answer_ok (res_status_json 200 (("success", JBool true) :: rest)).
Proof. answer_tac. Qed.

#[local] Hint Resolve answer_failure_400 answer_failure_404
  answer_failure_details answer_error_handler answer_not_connected
  answer_get_health answer_get_api answer_created answer_ok_200 : answers.

Ltac answer_cases :=
  repeat handler_step; cbn [bind ret throw try_catch fst];
  unfold res_json, not_found; auto with answers.

Lemma get_attendance_answer st : answer_ok (fst (get_attendance st)).
Proof. unfold get_attendance. destruct (pool st); answer_cases. Qed.

Lemma post_attendance_answer st req_body :
  answer_ok (fst (post_attendance st req_body)).
Proof. unfold post_attendance. destruct (pool st); answer_cases. Qed.

Lemma delete_attendance_answer st id :
  answer_ok (fst (delete_attendance st id)).
Proof. unfold delete_attendance. destruct (pool st); answer_cases. Qed.

(** Whenever the body of an answer carries a boolean [success], the
    status of the answer is one of 200, 201, 400, 404 and 500, and the
    flag is [true] exactly for a status below 400.  (The answers without
    the flag, among them the 204 of a preflight, are not concerned.) *)
Theorem status_and_flag_agree env st req fields b :
  body (fst (app env st req)) = JObj fields →
  field "success" fields = Some (JBool b) →
  known_status (status (fst (app env st req)))
  ∧ (b = true ↔ status (fst (app env st req)) < 400).
Proof.
  intros Hbody Hfield.
  assert (Hok : answer_ok (fst (app env st req))
                ∨ body (fst (app env st req)) = JNoBody).
  { unfold app.
    destruct (corsOptions_origin env (of_option (origin req)));
      cbn [fst]; auto with answers.
    destruct (route req); [right; reflexivity|..];
      left; destruct (parsed_body req); cbn [fst]; unfold not_found;
      auto using get_attendance_answer, post_attendance_answer,
        delete_attendance_answer with answers. }
  destruct Hok as [[Hknown Hflag]|Hnone]; [|congruence].
  split; [exact Hknown | exact (Hflag fields b Hbody Hfield)].
Qed.

(** The 404 of an unknown route carries [success: false]. *)
Lemma status_and_flag_agree_witness :
  known_status (status (fst (app env0 ready (request None (Unmatched "/x")))))
  ∧ (false = true
     ↔ status (fst (app env0 ready (request None (Unmatched "/x")))) < 400).
Proof.
  apply (status_and_flag_agree env0 ready (request None (Unmatched "/x"))
           [ ("success", JBool false);
             ("error", JStr "Route /x not found") ] false);
    reflexivity.
Defined.

(** With [pool] unset, a request for an attendance route that passes the
    CORS check and the body parsers is answered 500
    [Database not connected] before any validation, whatever it carries,
    and the store is not reached. *)
Theorem pool_unset_answers env st req req_body :
  pool st = None →
  cors_allows env (origin req) = true →
  parsed_body req = inr req_body →
  route req = GetAttendance ∨ route req = PostAttendance
  ∨ (∃ id, route req = DeleteAttendance id) →
  app env st req = (not_connected, st).
Proof.
  intros Hp Hcors Hbody Hroute. unfold app. unfold cors_allows in Hcors.
  destruct (corsOptions_origin env (of_option (origin req)));
    [discriminate|].
  rewrite Hbody.
  destruct Hroute as [->|[->|[id ->]]];
    [unfold get_attendance | unfold post_attendance
    | unfold delete_attendance]; rewrite Hp; reflexivity.
Qed.

(** Even a malformed creation request gets the 500 answer then. *)
Lemma pool_unset_answers_witness :
  app env0 idle
    {| origin := None; parsed_body := inr (Js.Str "not an object");
       route := PostAttendance |}
  = (not_connected, idle).
Proof.
  apply (pool_unset_answers env0 idle _ (Js.Str "not an object"));
    try reflexivity.
  right. left. reflexivity.
Defined.

(** ** Invariants of a run *)

Lemma created_id_status r z : created_id r = Some z → status r = 201.
Proof.
  unfold created_id. destruct (status r =? 201) eqn:E; [|discriminate].
  intros _. apply Z.eqb_eq. exact E.
Qed.

Lemma created_id_other r : status r ≠ 201 → created_id r = None.
Proof.
  intros H. destruct (created_id r) as [z|] eqn:E; [|reflexivity].
  apply created_id_status in E. contradiction.
Qed.

Lemma insert_row_keys d row :
  keys_below_counter d → keys_below_counter (Sql.insert_row d row).
Proof.
  intros Hk k. cbn [Sql.insert_row Sql.table Sql.auto_increment].
  rewrite lookup_insert_is_Some. intros [<-|[_ Hin]]; [lia|].
  apply Hk in Hin. lia.
Qed.

Lemma delete_row_keys d k :
  keys_below_counter d → keys_below_counter (Sql.delete_row d k).
Proof.
  intros Hk j. cbn [Sql.delete_row Sql.table Sql.auto_increment].
  intros [r Hr]. apply lookup_delete_Some in Hr as [_ Hr]. apply Hk. eauto.
Qed.

Lemma insert_row_valid d row :
  valid_row row → rows_valid d → rows_valid (Sql.insert_row d row).
Proof.
  intros Hrow Hv k r. cbn [Sql.insert_row Sql.table].
  rewrite lookup_insert_Some. intros [[_ <-]|[_ Hr]]; [exact Hrow|].
  exact (Hv k r Hr).
Qed.

Lemma delete_row_valid d k : rows_valid d → rows_valid (Sql.delete_row d k).
Proof.
  intros Hv j r. cbn [Sql.delete_row Sql.table].
  intros Hr. apply lookup_delete_Some in Hr as [_ Hr]. exact (Hv j r Hr).
Qed.

(** What one step keeps. *)
Lemma step_keeps st s out st' :
  step st s = (out, st') →
  pool st' = pool st
  ∧ Sql.auto_increment (db st) ≤ Sql.auto_increment (db st')
  ∧ (keys_below_counter (db st) → keys_below_counter (db st'))
  ∧ (rows_valid (db st) → rows_valid (db st')).
Proof.
  destruct s as [env req|now refuses]; cbn [step].
  - destruct (app env st req) as [resp st1] eqn:H. intros [= <- <-].
    apply app_inv in H
      as [(-> & _ & _)|[(_ & _ & _ & _ & row & Hrow & ->)
                       |(id & k & r & _ & _ & _ & ->)]].
    + split; [reflexivity|]. split; [lia|]. split; auto.
    + cbn. split; [reflexivity|]. split; [lia|].
      split; [apply insert_row_keys | apply insert_row_valid, Hrow].
    + cbn. split; [reflexivity|]. split; [lia|].
      split; [apply delete_row_keys | apply delete_row_valid].
  - intros [= <- <-]. cbn. split; [reflexivity|]. split; [lia|].
    split; auto.
Qed.

Lemma run_keeps st steps :
  pool (snd (run st steps)) = pool st
  ∧ (keys_below_counter (db st) →
     keys_below_counter (db (snd (run st steps))))
  ∧ (rows_valid (db st) → rows_valid (db (snd (run st steps)))).
Proof.
  revert st. induction steps as [|s rest IH]; intros st; cbn [run].
  - auto.
  - destruct (step st s) as [out st1] eqn:Hs.
    destruct (step_keeps st s out st1 Hs) as (Hp & _ & Hk & Hv).
    specialize (IH st1). destruct (run st1 rest) as [outs st2].
    cbn [snd] in *. destruct IH as (Hp' & Hk' & Hv').
    split; [congruence|]. split; auto.
Qed.

(** Along any run of requests and store changes, the handlers never
    reassign [pool], the AUTO_INCREMENT counter stays above every key in
    use, and every row keeps a status of the enumeration, a date of the
    4-2-2 shape and a name and identifier without outer white space. *)
Theorem run_keeps_invariants st steps :
  pool (snd (run st steps)) = pool st
  ∧ (keys_below_counter (db st) →
     keys_below_counter (db (snd (run st steps))))
  ∧ (rows_valid (db st) → rows_valid (db (snd (run st steps)))).
Proof. apply run_keeps. Qed.

Lemma run_keeps_invariants_witness :
  rows_valid (db (snd (run ready sample_steps)))
  ∧ keys_below_counter (db (snd (run ready sample_steps))).
Proof.
  destruct (run_keeps_invariants ready sample_steps) as (_ & Hk & Hv).
  split.
  - apply Hv. intros k r Hr. cbn in Hr. rewrite lookup_empty in Hr.
    discriminate.
  - apply Hk. intros k [r Hr]. cbn in Hr. rewrite lookup_empty in Hr.
    discriminate.
Defined.

Lemma run_issued st steps :
  StronglySorted Z.lt (issued (fst (run st steps)))
  ∧ Forall (λ z, Sql.auto_increment (db st) ≤ z
                 < Sql.auto_increment (db (snd (run st steps))))
      (issued (fst (run st steps)))
  ∧ Sql.auto_increment (db st)
    ≤ Sql.auto_increment (db (snd (run st steps))).
Proof.
  revert st. induction steps as [|s rest IH]; intros st; cbn [run].
  - cbn. split; [constructor|]. split; [constructor|lia].
  - destruct (step st s) as [out st1] eqn:Hs.
    specialize (IH st1). destruct (run st1 rest) as [outs st2] eqn:Hrun.
    cbn [fst snd] in *. destruct IH as (Hsorted & Hall & Hle).
    destruct s as [env req|now refuses]; cbn [step] in Hs.
    + destruct (app env st req) as [resp st1'] eqn:H.
      injection Hs as <- <-. cbn [app].
      change ([resp] ++ outs)%list with (resp :: outs).
      unfold issued in *. cbn [omap list_omap].
      apply app_inv in H
        as [(-> & Hne & _)|[(_ & _ & Hid & _ & row & _ & ->)
                         |(id & k & r & _ & H200 & _ & ->)]].
      * rewrite (created_id_other resp Hne). auto.
      * rewrite Hid. cbn in Hall, Hle.
        split; [|split; [|lia]].
        -- constructor; [exact Hsorted|].
           eapply Forall_impl; [exact Hall|]. cbn. intros z Hz. lia.
        -- constructor; [lia|].
           eapply Forall_impl; [exact Hall|]. cbn. intros z Hz. lia.
      * rewrite (created_id_other resp) by (rewrite H200; discriminate).
        cbn in Hall, Hle. auto.
    + injection Hs as <- <-. cbn in *. auto.
Qed.

(** The keys announced by the 201 answers of a run are strictly
    increasing, hence pairwise distinct, and lie between the counter at
    the start and the counter at the end. *)
Theorem issued_ids_increasing st steps :
  StronglySorted Z.lt (issued (fst (run st steps)))
  ∧ NoDup (issued (fst (run st steps)))
  ∧ ∀ z, z ∈ issued (fst (run st steps)) →
      Sql.auto_increment (db st) ≤ z
      < Sql.auto_increment (db (snd (run st steps))).
Proof.
  destruct (run_issued st steps) as (Hsorted & Hall & _).
  split; [exact Hsorted|]. split.
  - clear Hall. induction Hsorted as [|z l _ IH Hz]; constructor; auto.
    intros Hin. rewrite Forall_forall in Hz. specialize (Hz z Hin). lia.
  - rewrite Forall_forall in Hall. exact Hall.
Qed.

(** ** Sequences of requests *)

Lemma select_all_elem d k r :
  (k, r) ∈ Sql.select_all d ↔ Sql.table d !! k = Some r.
Proof. rewrite (select_all_perm d). apply elem_of_map_to_list. Qed.

Lemma select_all_length d : length (Sql.select_all d) = size (Sql.table d).
Proof.
  rewrite <- length_map_to_list. apply Permutation_length, select_all_perm.
Qed.

(** A listing that succeeds shows exactly the stored rows, each under its
    key, and no key twice. *)
Theorem listing_shows_table st p :
  pool st = Some p →
  Sql.refuses (db st) Sql.SelectAll = None →
  ∃ rows,
    fst (get_attendance st)
    = res_json [ ("success", JBool true); ("data", JRows rows);
                 ("count", JInt (Z.of_nat (length rows))) ]
    ∧ (∀ k r, (k, r) ∈ rows ↔ Sql.table (db st) !! k = Some r)
    ∧ NoDup rows.*1.
Proof.
  intros Hp Hok. exists (Sql.select_all (db st)).
  unfold get_attendance, Sql.select. rewrite Hp, Hok.
  split; [reflexivity|]. split; [intros k r; apply select_all_elem|].
  rewrite (select_all_perm (db st)). apply NoDup_fst_map_to_list.
Qed.

Lemma listing_shows_table_witness :
  ∃ rows,
    fst (get_attendance stocked)
    = res_json [ ("success", JBool true); ("data", JRows rows);
                 ("count", JInt (Z.of_nat (length rows))) ]
    ∧ (∃ r, (12, r) ∈ rows).
Proof.
  destruct (listing_shows_table stocked (createPool dbConfig) eq_refl eq_refl)
    as (rows & Heq & Hrows & _).
  exists rows. split; [exact Heq|].
  eexists. apply Hrows. reflexivity.
Defined.

(** A record that has just been created is in the next listing, under
    the key that was announced, and the listing is one longer than the
    table was. *)
Theorem created_then_listed st req_body resp st' :
  post_attendance st req_body = (resp, st') → status resp = 201 →
  Sql.refuses (db st') Sql.SelectAll = None →
  ∃ id row rows,
    created_id resp = Some id
    ∧ fst (get_attendance st')
      = res_json [ ("success", JBool true); ("data", JRows rows);
                   ("count", JInt (Z.of_nat (length rows))) ]
    ∧ (id, row) ∈ rows
    ∧ length rows = S (size (Sql.table (db st))).
Proof.
  intros H H201 Hok. apply post_attendance_inv in H as [[_ [E|E]]|H];
    [rewrite E in H201; discriminate..|].
  destruct H as (p & n & i & dt & s & Hp & G1 & G2 & G3 & G4 & Hn & Hi & Hd
                 & Hs & Hr & Hk & -> & ->).
  exists (Sql.auto_increment (db st)), (new_row (db st) n i dt s),
    (Sql.select_all (Sql.insert_row (db st) (new_row (db st) n i dt s))).
  split; [reflexivity|]. split.
  - unfold get_attendance, Sql.select. cbn [pool with_db db] in *.
    rewrite Hp, Hok. reflexivity.
  - split.
    + apply select_all_elem. apply lookup_insert_eq.
    + rewrite select_all_length. cbn [Sql.insert_row Sql.table].
      apply map_size_insert_None. exact Hk.
Qed.

Lemma created_then_listed_witness :
  ∃ row rows,
    fst (get_attendance
           (snd (post_attendance stocked
                   (attendance_body "Bob" "E2" "2024-03-02" "Absent"))))
    = res_json [ ("success", JBool true); ("data", JRows rows);
                 ("count", JInt (Z.of_nat (length rows))) ]
    ∧ (13, row) ∈ rows ∧ length rows = 2%nat.
Proof.
  destruct (created_then_listed stocked
              (attendance_body "Bob" "E2" "2024-03-02" "Absent") _ _
              eq_refl eq_refl eq_refl)
    as (id & row & rows & Hid & Heq & Hin & Hlen).
  injection Hid as <-. exists row, rows.
  split; [exact Heq|]. split; [exact Hin|]. rewrite Hlen. reflexivity.
Defined.



(** Deleting again what has just been deleted is answered 404 and changes
    nothing. *)
Theorem deleted_twice st id resp st' :
  delete_attendance st id = (resp, st') → status resp = 200 →
  delete_attendance st' id = (failure 404 "Record not found", st').
Proof.
  intros H H200. apply delete_attendance_inv in H as [[_ [E|[E|E]]]|H];
    [rewrite E in H200; discriminate..|].
  destruct H as (p & s & k & r & Hp & -> & Hs & Hnum & Hparse & Hok & Hl
                 & -> & ->).
  rewrite (delete_attendance_checked _ p s); [|exact Hp|exact Hs|exact Hnum].
  rewrite Hparse. unfold Sql.delete.
  cbn [with_db db Sql.delete_row Sql.refuses Sql.table].
  rewrite Hok, lookup_delete_eq. reflexivity.
Qed.

Lemma deleted_twice_witness :
  delete_attendance (snd (delete_attendance stocked (Some "12"))) (Some "12")
  = (failure 404 "Record not found",
     snd (delete_attendance stocked (Some "12"))).
Proof.
  apply (deleted_twice stocked (Some "12") deleted_ok); reflexivity.
Defined.



(** ** Start-up, for any budget *)

Lemma Startup_attempted n evs :
  Startup (S n) evs → (1 ≤ attempts evs)%nat.
Proof.
  intros H. remember (S n) as m eqn:Hm. revert n Hm.
  induction H; intros n' Hm; cbn [attempts]; lia.
Qed.

Lemma Startup_slept n evs :
  Startup n evs → slept evs = 5000 * Z.of_nat (attempts evs - 1).
Proof.
  induction 1 as [|n|n evs Hrun IH|]; cbn [slept attempts]; try reflexivity.
  pose proof (Startup_attempted n evs Hrun). rewrite IH. lia.
Qed.

Lemma Startup_gave_up n evs :
  Startup n evs → listens evs = 0%nat →
  attempts evs = n ∧ (n ≠ 0%nat → last evs = Some (Exited 1)).
Proof.
  induction 1 as [|n|n evs Hrun IH|]; cbn [listens attempts]; intros Hl.
  - split; [reflexivity|]. intros Hn. contradiction.
  - discriminate.
  - destruct (IH Hl) as [-> Hlast]. split; [reflexivity|]. intros _.
    pose proof (Startup_attempted n evs Hrun) as Hone.
    destruct evs as [|e evs]; [cbn in Hone; lia|].
    change (last (Attempted false :: Slept 5000 :: e :: evs))
      with (last (e :: evs)).
    apply Hlast. lia.
  - split; [reflexivity|]. intros _. reflexivity.
Qed.

(** The retry loop with any budget, from any value of [retries]: it makes
    at most the attempts that are left, listens at most once, sleeps
    5000 ms between two attempts and at no other time, and gives up
    (exit code 1) only after using every attempt that was left. *)
Theorem startServer_loop_budget m world r p :
  (attempts (snd (startServer_loop m world r p)) ≤ m - r)%nat
  ∧ (listens (snd (startServer_loop m world r p)) ≤ 1)%nat
  ∧ slept (snd (startServer_loop m world r p))
    = 5000 * Z.of_nat (attempts (snd (startServer_loop m world r p)) - 1)
  ∧ (listens (snd (startServer_loop m world r p)) = 0%nat →
     attempts (snd (startServer_loop m world r p)) = (m - r)%nat
     ∧ ((r < m)%nat →
        last (snd (startServer_loop m world r p)) = Some (Exited 1))).
Proof.
  pose proof (startServer_loop_runs m world r p) as Hrun.
  split; [eapply Startup_attempts, Hrun|].
  split; [eapply Startup_listens, Hrun|].
  split; [eapply Startup_slept, Hrun|].
  intros Hl. destruct (Startup_gave_up _ _ Hrun Hl) as [Ha Hlast].
  split; [exact Ha|]. intros Hlt. apply Hlast. lia.
Qed.

(** With the budget of three, a database that never answers costs two
    sleeps, ten seconds in all. *)
Lemma startServer_loop_budget_witness :
  slept (snd (startServer never_up)) = 10000
  ∧ last (snd (startServer never_up)) = Some (Exited 1).
Proof.
  destruct (startServer_loop_budget maxRetries never_up 0 None)
    as (_ & _ & Hslept & Hgave).
  destruct Hgave as [Hall Hlast]; [reflexivity|].
  split; [|apply Hlast; unfold maxRetries; lia].
  unfold startServer. rewrite Hslept, Hall. reflexivity.
Defined.

(** ** After start-up *)

Lemma step_pool st s out st' : step st s = (out, st') → pool st' = pool st.
Proof. intros H. apply (step_keeps st s out st' H). Qed.

Lemma has_success_not_connected r : has_success r → r ≠ not_connected.
Proof.
  intros (fields & b & Hb & Hf) ->. cbn in Hb. inversion Hb; subst.
  cbn in Hf. discriminate.
Qed.

Lemma app_connected env st req :
  pool st ≠ None → fst (app env st req) ≠ not_connected.
Proof.
  intros Hp. unfold app.
  destruct (corsOptions_origin env (of_option (origin req))); cbn [fst];
    [apply has_success_not_connected; auto with envelope|].
  destruct (route req); [discriminate|..];
    destruct (parsed_body req); cbn [fst]; try discriminate;
    apply has_success_not_connected; unfold not_found; auto with envelope.
Qed.

Lemma run_connected st steps :
  pool st ≠ None → not_connected ∉ fst (run st steps).
Proof.
  revert st. induction steps as [|s rest IH]; intros st Hp; cbn [run].
  - cbn. apply not_elem_of_nil.
  - destruct (step st s) as [out st1] eqn:Hs.
    pose proof (step_pool st s out st1 Hs) as Hp1.
    specialize (IH st1). destruct (run st1 rest) as [outs st2].
    cbn [fst] in *. rewrite elem_of_app. intros [Hin|Hin].
    + destruct s as [env req|now refuses]; cbn [step] in Hs.
      * destruct (app env st req) as [resp st1'] eqn:H.
        injection Hs as <- <-. apply list_elem_of_singleton in Hin.
        apply (app_connected env st req Hp). rewrite H. cbn. congruence.
      * injection Hs as <- <-. inversion Hin.
    + apply IH; [congruence | exact Hin].
Qed.

(** Once [startServer] has bound the listener, [pool] is set and stays
    set: whatever requests follow, over whatever store, none is ever
    answered [Database not connected]. *)
Theorem listening_server_connected world d steps :
  (0 < listens (snd (startServer world)))%nat →
  fst (startServer world) = Some (createPool dbConfig)
  ∧ (not_connected
     ∉ fst (run {| pool := fst (startServer world); db := d |} steps))
  ∧ pool (snd (run {| pool := fst (startServer world); db := d |} steps))
    = Some (createPool dbConfig).
Proof.
  intros Hl. apply startServer_loop_pool in Hl. fold (startServer world) in Hl.
  split; [exact Hl|]. split.
  - apply run_connected. cbn [pool]. rewrite Hl. discriminate.
  - destruct (run_keeps
                {| pool := fst (startServer world); db := d |} steps)
      as (Hp & _). rewrite Hp. exact Hl.
Qed.

Lemma listening_server_connected_witness :
  not_connected
  ∉ fst (run {| pool := fst (startServer up_on_second); db := empty_db |}
           sample_steps).
Proof.
  apply (listening_server_connected up_on_second empty_db sample_steps).
  vm_compute. lia.
Defined.

(** ** Keys written in decimal digits *)














(** In the sample run the two creations are announced under different
    keys. *)
Lemma issued_ids_increasing_witness :
  NoDup (issued (fst (run ready sample_steps)))
  ∧ issued (fst (run ready sample_steps)) = [1; 2].
Proof.
  split; [apply (issued_ids_increasing ready sample_steps) | reflexivity].
Defined.
